(** * Surface and trajectory generators of the two wireframe scripts

    Shallow embedding of

    - [constraint_surface] and [generate_trajectory_through_landscape]
      (radical-multiplicity/visualization_wireframe copy.py), and
    - [feltness_surface] (sensus-ex-machina/feltness_space.py),

    together with the data that the two [create_figure] functions compute
    before they draw: the surface mesh, the trajectory loop and the entity
    loop, with the colour tables they index.

    Number model.  A NumPy [float64] is read as a real number: rounding is
    not modelled, so [+], [*], [/], [sin], [cos] and [exp] are the exact
    operations of the Standard Library's [R].  One place where the finite
    range of a double decides control flow is kept: the conversion of a
    Python [int] operand of a mixed [int * float] product raises
    [OverflowError] when the integer does not fit in a double.

    A one-dimensional [ndarray] is a [list R] of any length.  NumPy's
    refusal to build an array that is too big ([ValueError] from a count
    of [2^60] on, [MemoryError] when memory runs out) is not modelled:
    the statements about when the generator raises take the outcome of
    [np.linspace] as given. *)

From Stdlib Require Import Reals Lra Lia ZArith List Bool Arith.
From Stdlib Require String.
Import ListNotations.

Open Scope R_scope.

(** ** Exceptions *)

Module Py.

Inductive exn : Type :=
| ValueError
| OverflowError.

(** A computation either raises or returns. *)
Inductive result (A : Type) : Type :=
| Raise (e : exn)
| Return (a : A).

Arguments Raise {A} e.
Arguments Return {A} a.

Definition bind {A B : Type} (m : result A) (k : A -> result B) : result B :=
  match m with
  | Raise e => Raise e
  | Return a => k a
  end.

(** [float(n)] for a Python [int]: CPython's [PyLong_AsDouble] rounds to
    the nearest double (ties to even) and raises [OverflowError] when the
    rounded value is not finite, that is when
    [|n| >= 2^1024 - 2^970]. *)
Definition float_max_int : Z := (2 ^ 1024 - 2 ^ 970)%Z.

Definition float_of_int (n : Z) : result R :=
  if (Z.abs n <? float_max_int)%Z then Return (IZR n) else Raise OverflowError.

End Py.

Notation "x <- m ;; k" := (Py.bind m (fun x => k))
  (at level 61, m at next level, right associativity).

(** ** Topology variant: [constraint_surface] *)

Definition constraint_surface (t y : R) : R :=
  let t_norm := t / 30.0 in
  let y_norm := y * 2.0 in
  let z :=
    0.5 * sin (t_norm * 0.8) * cos (y_norm * 0.6) +
    0.3 * cos (t_norm * 1.5 + y_norm * 1.2) +
    0.2 * sin (t_norm * 3.0 - y_norm * 2.0) +
    0.25 * sin (t_norm * 2.0) * sin (y_norm * 1.5) +
    -0.15 * ((t_norm - 3.0) ^ 2 + (y_norm - 2.0) ^ 2) * 0.05
  in z.

(** ** Feltness variant: [feltness_surface] *)

Module Feltness.

Definition base (embodiment persistence : R) : R :=
  0.3 * embodiment + 0.3 * persistence.

Definition synergy (embodiment persistence : R) : R :=
  0.5 * embodiment * persistence.

Definition uncanny_dip (embodiment persistence : R) : R :=
  -0.3 * exp (- ((embodiment - 0.6) ^ 2 / 0.05 + (persistence - 0.2) ^ 2 / 0.08)).

Definition ava_peak (embodiment persistence : R) : R :=
  0.2 * exp (- ((embodiment - 0.85) ^ 2 / 0.03 + (persistence - 0.5) ^ 2 / 0.05)).

Definition pet_peak (embodiment persistence : R) : R :=
  0.15 * exp (- ((embodiment - 0.6) ^ 2 / 0.04 + (persistence - 0.8) ^ 2 / 0.04)).

Definition human_peak (embodiment persistence : R) : R :=
  0.3 * exp (- ((embodiment - 0.95) ^ 2 / 0.02 + (persistence - 0.95) ^ 2 / 0.02)).

Definition tool_valley (embodiment persistence : R) : R :=
  -0.1 * exp (- ((embodiment - 0.1) ^ 2 / 0.05 + (persistence - 0.1) ^ 2 / 0.05)).

Definition ripples (embodiment persistence : R) : R :=
  0.05 * sin (embodiment * 8) * cos (persistence * 6) +
  0.03 * sin (embodiment * 12 + persistence * 10).

End Feltness.

Definition feltness_surface (embodiment persistence : R) : R :=
  let base := Feltness.base embodiment persistence in
  let synergy := Feltness.synergy embodiment persistence in
  let uncanny_dip := Feltness.uncanny_dip embodiment persistence in
  let ava_peak := Feltness.ava_peak embodiment persistence in
  let pet_peak := Feltness.pet_peak embodiment persistence in
  let human_peak := Feltness.human_peak embodiment persistence in
  let tool_valley := Feltness.tool_valley embodiment persistence in
  let ripples := Feltness.ripples embodiment persistence in
  let feltness :=
    base + synergy + uncanny_dip + ava_peak + pet_peak + human_peak
    + tool_valley + ripples in
  feltness.

(** ** NumPy and SciPy array operations used by the trajectory generator *)

Module Np.

(** [np.arange(0, num)] as doubles. *)
Definition arange (num : nat) : list R := map INR (seq 0 num).

(** [y[-1] = v] on a non-empty array. *)
Definition set_last (y : list R) (v : R) : list R :=
  match y with
  | [] => []
  | _ :: _ => removelast y ++ [v]
  end.

(** [np.linspace(start, stop, num)] with [endpoint=True]: [ValueError] on a
    negative [num]; otherwise [arange(0, num) * step + start] with
    [step = (stop - start) / (num - 1)], the last sample overwritten by
    [stop] when [num > 1].  For [num <= 1] the step is undefined and the
    samples are multiplied by [stop - start] instead. *)
Definition linspace (start stop : R) (num : Z) : Py.result (list R) :=
  if (num <? 0)%Z then Py.Raise Py.ValueError
  else
    let div := (num - 1)%Z in
    let delta := stop - start in
    let y := arange (Z.to_nat num) in
    let y :=
      if (0 <? div)%Z then
        let step := delta / IZR div in
        if Req_dec_T step 0
        then map (fun v => v / IZR div * delta) y
        else map (fun v => v * step) y
      else map (fun v => v * delta) y in
    let y := map (fun v => v + start) y in
    let y := if (1 <? num)%Z then set_last y stop else y in
    Py.Return y.

(** [np.clip(v, a_min, a_max)] is [minimum(maximum(v, a_min), a_max)]. *)
Definition clip (a_min a_max v : R) : R := Rmin (Rmax v a_min) a_max.

(** Element-wise binary operation on arrays of one shape. *)
Definition zip_with (f : R -> R -> R) (a b : list R) : list R :=
  map (fun p => f (fst p) (snd p)) (combine a b).

End Np.

Module Ndimage.

(** Boundary mode [reflect] ([d c b a | a b c d | d c b a]): position [k]
    of the extended line, counted from the first sample of a line of
    length [n], reads sample [reflect_index n k].  The extension has
    period [2 * n], which is how a line shorter than the window is
    continued. *)
Definition reflect_index (n : nat) (k : Z) : nat :=
  let m := (k mod (2 * Z.of_nat n))%Z in
  if (m <? Z.of_nat n)%Z then Z.to_nat m
  else Z.to_nat (2 * Z.of_nat n - 1 - m).

Definition extended (line : list R) (k : Z) : R :=
  nth (reflect_index (length line) k) line 0.

(** The line buffer: [size_before] samples in front of the line and
    [size_after] behind it. *)
Definition extend_line (line : list R) (size_before size_after : nat) : list R :=
  map (fun j => extended line (Z.of_nat j - Z.of_nat size_before))
      (seq 0 (size_before + length line + size_after)).

(** The sliding loop: [l1] points at the sample that leaves the window,
    [l2] at the one that enters it. *)
Fixpoint slide (filter_size : nat) (tmp : R) (l1 l2 : list R) (count : nat)
  : list R :=
  match count, l1, l2 with
  | S count', a :: l1', b :: l2' =>
      let tmp := tmp + (b - a) in
      tmp / INR filter_size :: slide filter_size tmp l1' l2' count'
  | _, _, _ => []
  end.

(** [uniform_filter1d(input, size)] with the defaults [mode='reflect'],
    [origin=0]: the window of output [l] covers the [size / 2] samples
    before position [l], the sample itself and the remaining
    [size - size / 2 - 1] after it. *)
Definition uniform_filter1d (input : list R) (size : nat) : list R :=
  match input with
  | [] => []
  | _ :: _ =>
      let size1 := (size / 2)%nat in
      let size2 := (size - size1 - 1)%nat in
      let iline := extend_line input size1 size2 in
      let tmp := fold_left Rplus (firstn size iline) 0 in
      tmp / INR size
        :: slide size tmp iline (skipn size iline) (length input - 1)
  end.

End Ndimage.

(** ** Topology variant: [generate_trajectory_through_landscape] *)

Definition trajectory : Type := (list R * list R * list R)%type.

Definition generate_trajectory_through_landscape
    (trajectory_id : Z) (num_points : Z) : Py.result trajectory :=
  t <- Np.linspace 0 180 num_points ;;
  id_minus_2 <- Py.float_of_int (trajectory_id - 2) ;;
  let y_start := 1.0 + id_minus_2 * 0.2 in
  let base_freq := 0.015 in
  id <- Py.float_of_int trajectory_id ;;
  let phase := id * 0.8 in
  let amplitude := 0.4 in
  let y := map (fun tk => y_start + amplitude * sin (base_freq * tk + phase)) t in
  let drift := map (fun tk => id_minus_2 * 0.1 * (tk / 180.0)) t in
  let y := Np.zip_with Rplus y drift in
  let y := map (Np.clip 0.2 1.8) y in
  let y := Ndimage.uniform_filter1d y 10 in
  let z := Np.zip_with (fun tk yk => constraint_surface tk yk + 0.15) t y in
  Py.Return (t, y, z).

(** Projections of a returned trajectory. *)
Definition traj_t (tr : trajectory) : list R := fst (fst tr).
Definition traj_y (tr : trajectory) : list R := snd (fst tr).
Definition traj_z (tr : trajectory) : list R := snd tr.

(** The indices the script passes: [range(5)]. *)
Definition valid_index (i : Z) : Prop := (0 <= i <= 4)%Z.

Definition strictly_increasing (l : list R) : Prop :=
  forall j k, (j < k < length l)%nat -> nth j l 0 < nth k l 0.

(** ** The surfaces as sums of closed-form terms *)

Definition surface_term : Type := R -> R -> R.

(** Left-to-right sum of the terms at one point. *)
Definition sum_terms (terms : list surface_term) (a b : R) : R :=
  fold_left (fun acc f => acc + f a b) terms 0.

(** The five terms of the topology variant as the specification lists
    them, in the normalised coordinates; the radial falloff carries the
    combined coefficient. *)
Definition topology_terms : list surface_term :=
  [ (fun t_norm y_norm => 0.5 * sin (t_norm * 0.8) * cos (y_norm * 0.6));
    (fun t_norm y_norm => 0.3 * cos (t_norm * 1.5 + y_norm * 1.2));
    (fun t_norm y_norm => 0.2 * sin (t_norm * 3.0 - y_norm * 2.0));
    (fun t_norm y_norm => 0.25 * sin (t_norm * 2.0) * sin (y_norm * 1.5));
    (fun t_norm y_norm =>
       -0.0075 * ((t_norm - 3.0) ^ 2 + (y_norm - 2.0) ^ 2)) ].

(** The summands of [feltness], in the order the script adds them. *)
Definition feltness_summands : list surface_term :=
  [ Feltness.base; Feltness.synergy; Feltness.uncanny_dip; Feltness.ava_peak;
    Feltness.pet_peak; Feltness.human_peak; Feltness.tool_valley;
    Feltness.ripples ].

(** A localized bump or dip. *)
Definition gaussian (amplitude center_a width_a center_b width_b : R)
  : surface_term :=
  fun a b =>
    amplitude * exp (- ((a - center_a) ^ 2 / width_a + (b - center_b) ^ 2 / width_b)).

(** A term has the shape of a bump or dip when it is [gaussian] with an
    amplitude other than zero and two positive widths: a zero amplitude
    gives the zero term, and a width that is not positive gives a term
    that does not fade away from its centre. *)
Definition gaussian_shaped (f : surface_term) : Prop :=
  exists amplitude center_a width_a center_b width_b,
    amplitude <> 0 /\ 0 < width_a /\ 0 < width_b /\
    forall a b, f a b = gaussian amplitude center_a width_a center_b width_b a b.

(** A term is localized around a centre when it is not zero there, is
    nowhere larger in absolute value, takes the value of the centre at no
    other point, and becomes as small as one likes far enough from the
    centre along either axis. *)
Definition localized (f : surface_term) : Prop :=
  exists center_a center_b,
    f center_a center_b <> 0 /\
    (forall a b, Rabs (f a b) <= Rabs (f center_a center_b)) /\
    (forall a b, f a b = f center_a center_b -> a = center_a /\ b = center_b) /\
    (forall eps, 0 < eps ->
       exists r, forall a b,
         r <= Rabs (a - center_a) \/ r <= Rabs (b - center_b) ->
         Rabs (f a b) < eps).

(** [gaussian_count terms n]: exactly [n] of [terms] are bumps or dips. *)
Inductive gaussian_count : list surface_term -> nat -> Prop :=
| gaussian_count_nil : gaussian_count [] 0
| gaussian_count_hit f terms n :
    gaussian_shaped f -> gaussian_count terms n ->
    gaussian_count (f :: terms) (S n)
| gaussian_count_miss f terms n :
    ~ gaussian_shaped f -> gaussian_count terms n ->
    gaussian_count (f :: terms) n.

(** ** The arrays the generator builds from the time axis

    The body of [generate_trajectory_through_landscape] after the two
    conversions of [trajectory_id], stage by stage, for the statements
    below. *)

Definition float_convertible (n : Z) : Prop := (Z.abs n < Py.float_max_int)%Z.

Definition drifted_y (trajectory_id : Z) (t : list R) : list R :=
  let id_minus_2 := IZR (trajectory_id - 2) in
  let y_start := 1.0 + id_minus_2 * 0.2 in
  let base_freq := 0.015 in
  let phase := IZR trajectory_id * 0.8 in
  let amplitude := 0.4 in
  let y := map (fun tk => y_start + amplitude * sin (base_freq * tk + phase)) t in
  let drift := map (fun tk => id_minus_2 * 0.1 * (tk / 180.0)) t in
  Np.zip_with Rplus y drift.

Definition clamped_y (trajectory_id : Z) (t : list R) : list R :=
  map (Np.clip 0.2 1.8) (drifted_y trajectory_id t).

Definition smoothed_y (trajectory_id : Z) (t : list R) : list R :=
  Ndimage.uniform_filter1d (clamped_y trajectory_id t) 10.

Definition elevation (t y : list R) : list R :=
  Np.zip_with (fun tk yk => constraint_surface tk yk + 0.15) t y.

(** Sum of the first [size] samples of a line: the running total [tmp] of
    the filter when its window starts at the head of the line. *)
Definition window_sum (size : nat) (line : list R) : R :=
  fold_left Rplus (firstn size line) 0.

Definition within (lo hi : R) (v : R) : Prop := lo <= v <= hi.

(** One sample of the oscillation with drift, before the clamp: the
    element of [drifted_y] at time [tk]. *)
Definition drifted_sample (trajectory_id : Z) (tk : R) : R :=
  1.0 + IZR (trajectory_id - 2) * 0.2
  + 0.4 * sin (0.015 * tk + IZR trajectory_id * 0.8)
  + IZR (trajectory_id - 2) * 0.1 * (tk / 180.0).

(** The samples of the reflected line under the window of output [k]. *)
Definition window (input : list R) (size k : nat) : list R :=
  map (fun j => Ndimage.extended input
                  (Z.of_nat k + Z.of_nat j - Z.of_nat (size / 2)))
      (seq 0 size).

(** ** Topology variant: the data of [create_figure] *)

Module Grid.

(** [np.meshgrid(x, y)] with the default [indexing='xy']: two arrays of
    shape [(len(y), len(x))], the first repeating [x] in every row, the
    second holding [y[r]] all along row [r]. *)
Definition meshgrid (x y : list R) : list (list R) * list (list R) :=
  (map (fun _ => x) y, map (fun yv => map (fun _ => yv) x) y).

(** Element-wise binary operation on two-dimensional arrays of one shape. *)
Definition zip_with2 (f : R -> R -> R) (a b : list (list R)) : list (list R) :=
  map (fun p => Np.zip_with f (fst p) (snd p)) (combine a b).

End Grid.

(** The surface mesh, with the two resolutions as parameters; the script
    sets [resolution_t = 120] and [resolution_y = 80]. *)
Definition surface_mesh (resolution_t resolution_y : Z)
  : Py.result (list (list R)) :=
  t_range <- Np.linspace 0 180 resolution_t ;;
  y_range <- Np.linspace 0 2 resolution_y ;;
  let (T_mesh, Y_mesh) := Grid.meshgrid t_range y_range in
  let Z_mesh := Grid.zip_with2 constraint_surface T_mesh Y_mesh in
  Py.Return Z_mesh.

Module PySeq.

(** [l[i]] for a list: a negative index counts from the end; [None]
    stands for [IndexError]. *)
Definition getitem {A : Type} (l : list A) (i : Z) : option A :=
  let n := Z.of_nat (length l) in
  if (i <? 0)%Z then
    if (i + n <? 0)%Z then None else nth_error l (Z.to_nat (i + n))
  else nth_error l (Z.to_nat i).

(** [range(stop)]. *)
Definition range (stop : Z) : list Z := map Z.of_nat (seq 0 (Z.to_nat stop)).

End PySeq.

Module Wireframe.

Import String.
Local Open Scope string_scope.

Definition TRAJECTORY_COLORS : list string :=
  [ "#9ACD32"; "#7FFF00"; "#6B8E23"; "#90EE90"; "#556B2F" ].

(** The trajectory loop: for each [i] of [range(5)] the generated
    trajectory and the colour [TRAJECTORY_COLORS[i]] of its line. *)
Definition figure_trajectories
  : list (Py.result trajectory * option string) :=
  map (fun i =>
         (generate_trajectory_through_landscape i 200,
          PySeq.getitem TRAJECTORY_COLORS i))
      (PySeq.range 5).

End Wireframe.

(** ** Feltness variant: the data of [create_figure] *)

Module FeltnessSpace.

Import String.
Local Open Scope string_scope.

(** A [dict] with string keys as the list of its items, in the order of
    the literal; [None] stands for [KeyError]. *)
Definition dict_getitem (d : list (string * string)) (key : string)
  : option string :=
  match find (fun item => String.eqb (fst item) key) d with
  | Some item => Some (snd item)
  | None => None
  end.

Definition ENTITY_COLORS : list (string * string) :=
  [ ("search_engine", "#2F4F2F");
    ("calculator", "#3D5C3D");
    ("chatbot", "#4A6B4A");
    ("furby", "#6B8E23");
    ("replika", "#7BA428");
    ("robot_pet", "#8FBC2F");
    ("ava", "#9ACD32");
    ("fictional_char", "#90EE90");
    ("pet_animal", "#ADFF2F");
    ("human_friend", "#7FFF00") ].

Definition entity : Type := (R * R * string * string)%type.

Definition ENTITIES : list entity :=
  [ (0.05, 0.05, "Search Engine", "search_engine");
    (0.08, 0.08, "Calculator", "calculator");
    (0.15, 0.12, "Chatbot", "chatbot");
    (0.35, 0.25, "Furby", "furby");
    (0.20, 0.35, "Replika", "replika");
    (0.55, 0.50, "Robot Pet", "robot_pet");
    (0.40, 0.60, "Fictional Character", "fictional_char");
    (0.85, 0.45, "Ava", "ava");
    (0.70, 0.85, "Pet Animal", "pet_animal");
    (0.95, 0.95, "Human Friend", "human_friend") ].

Definition color_key (ent : entity) : string := snd ent.

(** One pass of the entity loop: the position and the colour of the
    scattered point. *)
Definition entity_point (ent : entity) : option (R * R * R * string) :=
  let '(embodiment, persistence, name, color_key) := ent in
  let feltness := feltness_surface embodiment persistence in
  let z_offset := 0.05 in
  match dict_getitem ENTITY_COLORS color_key with
  | Some color => Some (embodiment, persistence, feltness + z_offset, color)
  | None => None
  end.

End FeltnessSpace.

(** * Properties *)

(** ** Surfaces *)

Section SurfaceFacts.

Lemma sin_bounds (x : R) : -1 <= sin x <= 1.
Proof. pose proof (SIN_bound x); lra. Qed.

Lemma cos_bounds (x : R) : -1 <= cos x <= 1.
Proof. pose proof (COS_bound x); lra. Qed.

Lemma product_unit_interval (u v : R) :
  -1 <= u <= 1 -> -1 <= v <= 1 -> -1 <= u * v <= 1.
Proof. intros Hu Hv; split; nra. Qed.

Lemma exp_of_nonpos (x : R) : 0 <= x -> 0 < exp (- x) <= 1.
Proof.
  intros Hx; split; [apply exp_pos|].
  destruct Hx as [Hx | <-].
  - left. rewrite <- exp_0. apply exp_increasing. lra.
  - rewrite Ropp_0, exp_0. lra.
Qed.

Lemma gaussian_exponent_nonneg (a ca wa b cb wb : R) :
  0 < wa -> 0 < wb -> 0 <= (a - ca) ^ 2 / wa + (b - cb) ^ 2 / wb.
Proof.
  intros Hwa Hwb.
  apply Rplus_le_le_0_compat; apply Rmult_le_pos;
    try apply pow2_ge_0; left; now apply Rinv_0_lt_compat.
Qed.

End SurfaceFacts.

(** C3. [constraint_surface t y] is the sum of the five terms of
    [topology_terms] taken at [t / 30] and [y * 2]; its last term is
    [-0.0075 * ((t_norm - 3)^2 + (y_norm - 2)^2)], the product of the two
    literal factors [-0.15] and [0.05] of the source. *)
Theorem constraint_surface_five_terms :
  length topology_terms = 5%nat /\
  forall t y : R,
    constraint_surface t y = sum_terms topology_terms (t / 30) (y * 2).
Proof.
  split; [reflexivity|].
  intros t y. unfold constraint_surface, sum_terms, topology_terms.
  cbn [fold_left].
  replace (t / 30.0) with (t / 30) by lra.
  replace (y * 2.0) with (y * 2) by lra.
  lra.
Qed.

(** The fifth term cannot carry any other coefficient: a surface of the
    same shape with coefficient [c] on the radial term agrees with
    [constraint_surface] only for [c = -0.0075]. *)
Lemma radial_coefficient_unique (c : R) :
  (forall t y : R,
     constraint_surface t y =
     0.5 * sin (t / 30 * 0.8) * cos (y * 2 * 0.6) +
     0.3 * cos (t / 30 * 1.5 + y * 2 * 1.2) +
     0.2 * sin (t / 30 * 3.0 - y * 2 * 2.0) +
     0.25 * sin (t / 30 * 2.0) * sin (y * 2 * 1.5) +
     c * ((t / 30 - 3) ^ 2 + (y * 2 - 2) ^ 2)) ->
  c = -0.0075.
Proof.
  intros H. specialize (H 0 0).
  unfold constraint_surface in H. cbv zeta in H.
  replace (0 / 30.0) with (0 / 30) in H by lra.
  replace (0 * 2.0) with (0 * 2) in H by lra.
  lra.
Qed.

(** C9. On the rendered domain, [0 <= t <= 180] and [0 <= y <= 2], the
    surface stays inside the z-limits [-1.5, 1.5] of the plot: the four
    wave terms are bounded by [0.5 + 0.3 + 0.2 + 0.25 = 1.25] and the
    radial term lies in [-0.0975, 0]. *)
Theorem constraint_surface_within_zlim (t y : R) :
  0 <= t <= 180 -> 0 <= y <= 2 ->
  -1.5 <= constraint_surface t y <= 1.5.
Proof.
  intros Ht Hy. unfold constraint_surface. cbv zeta.
  set (tn := t / 30.0). set (yn := y * 2.0).
  assert (Htn : 0 <= tn <= 6) by (unfold tn; lra).
  assert (Hyn : 0 <= yn <= 4) by (unfold yn; lra).
  pose proof (product_unit_interval _ _ (sin_bounds (tn * 0.8))
                (cos_bounds (yn * 0.6))) as H1.
  pose proof (cos_bounds (tn * 1.5 + yn * 1.2)) as H2.
  pose proof (sin_bounds (tn * 3.0 - yn * 2.0)) as H3.
  pose proof (product_unit_interval _ _ (sin_bounds (tn * 2.0))
                (sin_bounds (yn * 1.5))) as H4.
  assert (Hr : 0 <= (tn - 3.0) ^ 2 + (yn - 2.0) ^ 2 <= 13).
  { replace ((tn - 3.0) ^ 2) with (9 + tn * (tn - 6)) by (simpl; lra).
    replace ((yn - 2.0) ^ 2) with (4 + yn * (yn - 4)) by (simpl; lra).
    pose proof (Rle_0_sqr (tn - 3)) as Hst.
    pose proof (Rle_0_sqr (yn - 2)) as Hsy.
    unfold Rsqr in Hst, Hsy.
    assert (0 <= tn * (6 - tn)) by (apply Rmult_le_pos; lra).
    assert (0 <= yn * (4 - yn)) by (apply Rmult_le_pos; lra).
    lra. }
  set (r := (tn - 3.0) ^ 2 + (yn - 2.0) ^ 2) in *.
  set (p1 := sin (tn * 0.8) * cos (yn * 0.6)) in *.
  set (p4 := sin (tn * 2.0) * sin (yn * 1.5)) in *.
  replace (0.5 * sin (tn * 0.8) * cos (yn * 0.6)) with (0.5 * p1)
    by (unfold p1; ring).
  replace (0.25 * sin (tn * 2.0) * sin (yn * 1.5)) with (0.25 * p4)
    by (unfold p4; ring).
  split; lra.
Qed.

Lemma constraint_surface_within_zlim_witness :
  -1.5 <= constraint_surface 90 1 <= 1.5.
Proof. apply (constraint_surface_within_zlim 90 1); lra. Defined.

(** *** Feltness surface *)

Section FeltnessBounds.

Variables e p : R.

Lemma uncanny_dip_range : -0.3 <= Feltness.uncanny_dip e p < 0.
Proof.
  unfold Feltness.uncanny_dip.
  destruct (exp_of_nonpos _ (gaussian_exponent_nonneg e 0.6 0.05 p 0.2 0.08
              ltac:(lra) ltac:(lra))).
  split; lra.
Qed.

Lemma ava_peak_range : 0 < Feltness.ava_peak e p <= 0.2.
Proof.
  unfold Feltness.ava_peak.
  destruct (exp_of_nonpos _ (gaussian_exponent_nonneg e 0.85 0.03 p 0.5 0.05
              ltac:(lra) ltac:(lra))).
  split; lra.
Qed.

Lemma pet_peak_range : 0 < Feltness.pet_peak e p <= 0.15.
Proof.
  unfold Feltness.pet_peak.
  destruct (exp_of_nonpos _ (gaussian_exponent_nonneg e 0.6 0.04 p 0.8 0.04
              ltac:(lra) ltac:(lra))).
  split; lra.
Qed.

Lemma human_peak_range : 0 < Feltness.human_peak e p <= 0.3.
Proof.
  unfold Feltness.human_peak.
  destruct (exp_of_nonpos _ (gaussian_exponent_nonneg e 0.95 0.02 p 0.95 0.02
              ltac:(lra) ltac:(lra))).
  split; lra.
Qed.

Lemma tool_valley_range : -0.1 <= Feltness.tool_valley e p < 0.
Proof.
  unfold Feltness.tool_valley.
  destruct (exp_of_nonpos _ (gaussian_exponent_nonneg e 0.1 0.05 p 0.1 0.05
              ltac:(lra) ltac:(lra))).
  split; lra.
Qed.

Lemma ripples_range : -0.08 <= Feltness.ripples e p <= 0.08.
Proof.
  unfold Feltness.ripples.
  pose proof (product_unit_interval _ _ (sin_bounds (e * 8))
                (cos_bounds (p * 6))) as H1.
  pose proof (sin_bounds (e * 12 + p * 10)) as H2.
  set (q := sin (e * 8) * cos (p * 6)) in *.
  replace (0.05 * sin (e * 8) * cos (p * 6)) with (0.05 * q)
    by (unfold q; ring).
  split; lra.
Qed.

End FeltnessBounds.

Lemma human_peak_at_center : Feltness.human_peak 0.95 0.95 = 0.3.
Proof.
  unfold Feltness.human_peak.
  replace (- ((0.95 - 0.95) ^ 2 / 0.02 + (0.95 - 0.95) ^ 2 / 0.02)) with 0
    by (simpl; lra).
  rewrite exp_0. lra.
Qed.

(** C6. The surface at the "human friend" point [(0.95, 0.95)] is
    strictly above the surface at the "tool" point [(0.05, 0.05)]: the
    first is at least [0.84], the second at most [0.77]. *)
Theorem human_friend_above_tool :
  feltness_surface 0.05 0.05 < feltness_surface 0.95 0.95.
Proof.
  unfold feltness_surface. cbv zeta.
  pose proof (uncanny_dip_range 0.05 0.05).
  pose proof (ava_peak_range 0.05 0.05).
  pose proof (pet_peak_range 0.05 0.05).
  pose proof (human_peak_range 0.05 0.05).
  pose proof (tool_valley_range 0.05 0.05).
  pose proof (ripples_range 0.05 0.05).
  pose proof (uncanny_dip_range 0.95 0.95).
  pose proof (ava_peak_range 0.95 0.95).
  pose proof (pet_peak_range 0.95 0.95).
  pose proof human_peak_at_center.
  pose proof (tool_valley_range 0.95 0.95).
  pose proof (ripples_range 0.95 0.95).
  unfold Feltness.base, Feltness.synergy.
  lra.
Qed.

(** *** Which summands of [feltness] are bumps or dips *)

Lemma exp_neg_le_inv (x : R) : 0 <= x -> exp (- x) <= / (1 + x).
Proof.
  intros Hx. rewrite exp_Ropp.
  apply Rinv_le_contravar; [lra | apply exp_ineq1_le].
Qed.

Lemma exp_neg_eq_1 (x : R) : 0 <= x -> (exp (- x) = 1 <-> x = 0).
Proof.
  intros Hx. split.
  - intros H. destruct (Req_dec x 0) as [E | E]; [exact E|].
    pose proof (exp_neg_le_inv x Hx) as Hb.
    assert (Hlt : / (1 + x) < 1).
    { rewrite <- Rinv_1 at 2. apply Rinv_lt_contravar; lra. }
    lra.
  - intros ->. rewrite Ropp_0. apply exp_0.
Qed.

Lemma gaussian_exponent_zero (a ca wa b cb wb : R) :
  0 < wa -> 0 < wb ->
  ((a - ca) ^ 2 / wa + (b - cb) ^ 2 / wb = 0 <-> a = ca /\ b = cb).
Proof.
  intros Hwa Hwb.
  assert (Ha : 0 <= (a - ca) ^ 2 / wa).
  { apply Rmult_le_pos; [apply pow2_ge_0 | left; now apply Rinv_0_lt_compat]. }
  assert (Hb : 0 <= (b - cb) ^ 2 / wb).
  { apply Rmult_le_pos; [apply pow2_ge_0 | left; now apply Rinv_0_lt_compat]. }
  split.
  - intros H.
    assert (Ha0 : (a - ca) ^ 2 / wa = 0) by lra.
    assert (Hb0 : (b - cb) ^ 2 / wb = 0) by lra.
    assert (Hsq : forall u w, 0 < w -> u ^ 2 / w = 0 -> u = 0).
    { intros u w Hw Hu.
      apply Rmult_integral in Hu. destruct Hu as [Hu | Hu].
      - replace (u ^ 2) with (Rsqr u) in Hu by (unfold Rsqr; ring).
        now apply Rsqr_0_uniq.
      - pose proof (Rinv_0_lt_compat w Hw). lra. }
    apply Hsq in Ha0; [| exact Hwa]. apply Hsq in Hb0; [| exact Hwb].
    split; lra.
  - intros [-> ->].
    replace (ca - ca) with 0 by ring. replace (cb - cb) with 0 by ring.
    unfold Rdiv. rewrite pow_i by lia. ring.
Qed.

(** A bump or dip with positive widths takes its amplitude at its centre
    and nowhere else. *)
Lemma gaussian_extreme_iff (amplitude ca wa cb wb a b : R) :
  amplitude <> 0 -> 0 < wa -> 0 < wb ->
  (gaussian amplitude ca wa cb wb a b = amplitude <-> a = ca /\ b = cb).
Proof.
  intros HA Hwa Hwb. unfold gaussian.
  pose proof (gaussian_exponent_nonneg a ca wa b cb wb Hwa Hwb) as Hx.
  rewrite <- (gaussian_exponent_zero a ca wa b cb wb Hwa Hwb).
  rewrite <- (exp_neg_eq_1 _ Hx).
  set (E := exp _). split.
  - intros H. apply (Rmult_eq_reg_l amplitude); [lra | exact HA].
  - intros ->. ring.
Qed.

Lemma gaussian_shaped_intro (amplitude ca wa cb wb : R) (f : surface_term) :
  amplitude <> 0 -> 0 < wa -> 0 < wb ->
  (forall a b, f a b = gaussian amplitude ca wa cb wb a b) -> gaussian_shaped f.
Proof. intros HA Hwa Hwb H. now exists amplitude, ca, wa, cb, wb. Qed.

Lemma uncanny_dip_gaussian : gaussian_shaped Feltness.uncanny_dip.
Proof.
  apply (gaussian_shaped_intro (-0.3) 0.6 0.05 0.2 0.08);
    [lra | lra | lra | reflexivity].
Qed.

Lemma ava_peak_gaussian : gaussian_shaped Feltness.ava_peak.
Proof.
  apply (gaussian_shaped_intro 0.2 0.85 0.03 0.5 0.05);
    [lra | lra | lra | reflexivity].
Qed.

Lemma pet_peak_gaussian : gaussian_shaped Feltness.pet_peak.
Proof.
  apply (gaussian_shaped_intro 0.15 0.6 0.04 0.8 0.04);
    [lra | lra | lra | reflexivity].
Qed.

Lemma human_peak_gaussian : gaussian_shaped Feltness.human_peak.
Proof.
  apply (gaussian_shaped_intro 0.3 0.95 0.02 0.95 0.02);
    [lra | lra | lra | reflexivity].
Qed.

Lemma tool_valley_gaussian : gaussian_shaped Feltness.tool_valley.
Proof.
  apply (gaussian_shaped_intro (-0.1) 0.1 0.05 0.1 0.05);
    [lra | lra | lra | reflexivity].
Qed.

(** A bump or dip vanishes nowhere; so a term with a zero is none. *)
Lemma gaussian_shaped_zero (f : surface_term) (a0 b0 : R) :
  gaussian_shaped f -> f a0 b0 = 0 -> forall a b, f a b = 0.
Proof.
  intros (amp & ca & wa & cb & wb & HA & _ & _ & Hf) H0 a b.
  rewrite Hf in H0. unfold gaussian in H0.
  apply Rmult_integral in H0. destruct H0 as [Hamp | Hexp].
  - contradiction.
  - pose proof (exp_pos (- ((a0 - ca) ^ 2 / wa + (b0 - cb) ^ 2 / wb))). lra.
Qed.

Lemma base_not_gaussian : ~ gaussian_shaped Feltness.base.
Proof.
  intros H.
  assert (H0 : Feltness.base 0 0 = 0) by (unfold Feltness.base; lra).
  pose proof (gaussian_shaped_zero _ _ _ H H0 1 1) as H1.
  unfold Feltness.base in H1. lra.
Qed.

Lemma synergy_not_gaussian : ~ gaussian_shaped Feltness.synergy.
Proof.
  intros H.
  assert (H0 : Feltness.synergy 0 0 = 0) by (unfold Feltness.synergy; lra).
  pose proof (gaussian_shaped_zero _ _ _ H H0 1 1) as H1.
  unfold Feltness.synergy in H1. lra.
Qed.

Lemma ripples_not_gaussian : ~ gaussian_shaped Feltness.ripples.
Proof.
  intros H.
  assert (H0 : Feltness.ripples 0 0 = 0).
  { unfold Feltness.ripples.
    replace (0 * 8) with 0 by lra. replace (0 * 12 + 0 * 10) with 0 by lra.
    rewrite sin_0. lra. }
  pose proof (gaussian_shaped_zero _ _ _ H H0 (PI / 8) 0) as H1.
  unfold Feltness.ripples in H1.
  replace (PI / 8 * 8) with PI in H1 by lra.
  replace (PI / 8 * 12 + 0 * 10) with (3 * (PI / 2)) in H1 by lra.
  rewrite sin_PI, sin_3PI2 in H1. lra.
Qed.

Lemma gaussian_at_centre (amplitude ca wa cb wb : R) :
  gaussian amplitude ca wa cb wb ca cb = amplitude.
Proof.
  unfold gaussian.
  replace (ca - ca) with 0 by ring. replace (cb - cb) with 0 by ring.
  unfold Rdiv. rewrite pow_i by lia.
  replace (- (0 * / wa + 0 * / wb)) with 0 by ring.
  rewrite exp_0. ring.
Qed.

(** Far enough from the centre along either axis a bump is as small as
    one likes. *)
Lemma gaussian_fades (amplitude ca wa cb wb eps : R) :
  0 < wa -> 0 < wb -> 0 < eps ->
  exists r, forall a b,
    r <= Rabs (a - ca) \/ r <= Rabs (b - cb) ->
    Rabs (gaussian amplitude ca wa cb wb a b) < eps.
Proof.
  intros Hwa Hwb Heps.
  set (K := Rabs amplitude / eps).
  assert (HK : 0 <= K).
  { apply Rmult_le_pos; [apply Rabs_pos | left; now apply Rinv_0_lt_compat]. }
  set (w := Rmax wa wb).
  assert (Hw : 0 < w) by (unfold w; pose proof (Rmax_l wa wb); lra).
  exists (1 + w * K). intros a b Hfar.
  assert (Hr : 1 <= 1 + w * K).
  { assert (0 <= w * K) by (apply Rmult_le_pos; lra). lra. }
  assert (Hsq : forall u v, 0 < v -> v <= w -> 1 + w * K <= Rabs u ->
                            K <= u ^ 2 / v).
  { intros u v Hv Hvw Hu.
    assert (Hu2 : Rabs u <= u ^ 2).
    { replace (u ^ 2) with (Rabs u * Rabs u)
        by (rewrite <- Rabs_mult; simpl; rewrite Rmult_1_r;
            apply Rabs_pos_eq; apply Rle_0_sqr).
      assert (0 <= Rabs u * (Rabs u - 1)) by (apply Rmult_le_pos; lra).
      lra. }
    assert (Hvk : v * K <= w * K) by (apply Rmult_le_compat_r; lra).
    apply (Rmult_le_reg_l v); [exact Hv|].
    replace (v * (u ^ 2 / v)) with (u ^ 2) by (field; lra).
    lra. }
  pose proof (pow2_ge_0 (a - ca)) as Hpa. pose proof (pow2_ge_0 (b - cb)) as Hpb.
  assert (Hta : 0 <= (a - ca) ^ 2 / wa).
  { apply Rmult_le_pos; [exact Hpa | left; now apply Rinv_0_lt_compat]. }
  assert (Htb : 0 <= (b - cb) ^ 2 / wb).
  { apply Rmult_le_pos; [exact Hpb | left; now apply Rinv_0_lt_compat]. }
  set (x := (a - ca) ^ 2 / wa + (b - cb) ^ 2 / wb).
  assert (Hx : K <= x).
  { unfold x. destruct Hfar as [Ha | Hb].
    - pose proof (Hsq (a - ca) wa Hwa (Rmax_l wa wb) Ha). lra.
    - pose proof (Hsq (b - cb) wb Hwb (Rmax_r wa wb) Hb). lra. }
  unfold gaussian. fold x.
  rewrite Rabs_mult, (Rabs_pos_eq (exp (- x))) by (left; apply exp_pos).
  pose proof (exp_neg_le_inv x ltac:(lra)) as He.
  assert (Hinv : / (1 + x) <= / (1 + K)) by (apply Rinv_le_contravar; lra).
  assert (Hlt : Rabs amplitude * / (1 + K) < eps).
  { apply (Rmult_lt_reg_r (1 + K)); [lra|].
    replace (Rabs amplitude * / (1 + K) * (1 + K)) with (Rabs amplitude)
      by (field; lra).
    replace (eps * (1 + K)) with (eps + Rabs amplitude)
      by (unfold K; field; lra).
    lra. }
  assert (Rabs amplitude * exp (- x) <= Rabs amplitude * / (1 + K)).
  { apply Rmult_le_compat_l; [apply Rabs_pos | lra]. }
  lra.
Qed.

(** A bump or dip is localized around its centre. *)
Lemma gaussian_shaped_localized (f : surface_term) :
  gaussian_shaped f -> localized f.
Proof.
  intros (amp & ca & wa & cb & wb & HA & Hwa & Hwb & Hf).
  exists ca, cb.
  assert (Hc : f ca cb = amp) by (rewrite Hf; apply gaussian_at_centre).
  rewrite Hc. split; [exact HA|]. split; [| split].
  - intros a b. rewrite Hf. unfold gaussian.
    pose proof (gaussian_exponent_nonneg a ca wa b cb wb Hwa Hwb) as Hx.
    pose proof (exp_of_nonpos _ Hx) as He.
    rewrite Rabs_mult, (Rabs_pos_eq (exp _)) by lra.
    pose proof (Rabs_pos amp).
    assert (Rabs amp * exp (- ((a - ca) ^ 2 / wa + (b - cb) ^ 2 / wb))
            <= Rabs amp * 1) by (apply Rmult_le_compat_l; lra).
    lra.
  - intros a b H. rewrite Hf in H.
    now apply (gaussian_extreme_iff amp ca wa cb wb a b HA Hwa Hwb).
  - intros eps Heps.
    destruct (gaussian_fades amp ca wa cb wb eps Hwa Hwb Heps) as [r Hr].
    exists r. intros a b Hfar. rewrite Hf. now apply Hr.
Qed.

(** The base and the synergy are unbounded, and the ripples repeat with
    period [PI] along the first axis: none of them is localized. *)
Lemma base_not_localized : ~ localized Feltness.base.
Proof.
  intros (ca & cb & _ & Hmax & _).
  set (v := Rabs (Feltness.base ca cb)) in *.
  assert (Hv : 0 <= v) by apply Rabs_pos.
  specialize (Hmax ((v + 1) / 0.3) 0).
  unfold Feltness.base in Hmax.
  replace (0.3 * ((v + 1) / 0.3) + 0.3 * 0) with (v + 1) in Hmax by lra.
  rewrite Rabs_pos_eq in Hmax by lra. lra.
Qed.

Lemma synergy_not_localized : ~ localized Feltness.synergy.
Proof.
  intros (ca & cb & _ & Hmax & _).
  set (v := Rabs (Feltness.synergy ca cb)) in *.
  assert (Hv : 0 <= v) by apply Rabs_pos.
  specialize (Hmax (2 * (v + 1)) 1).
  unfold Feltness.synergy in Hmax.
  replace (0.5 * (2 * (v + 1)) * 1) with (v + 1) in Hmax by lra.
  rewrite Rabs_pos_eq in Hmax by lra. lra.
Qed.

Lemma ripples_not_localized : ~ localized Feltness.ripples.
Proof.
  intros (ca & cb & _ & _ & Huniq & _).
  assert (Hper : Feltness.ripples (ca + PI) cb = Feltness.ripples ca cb).
  { unfold Feltness.ripples.
    replace ((ca + PI) * 8) with (ca * 8 + 2 * INR 4 * PI) by (simpl; lra).
    replace ((ca + PI) * 12 + cb * 10)
      with (ca * 12 + cb * 10 + 2 * INR 6 * PI) by (simpl; lra).
    now rewrite !sin_period. }
  destruct (Huniq _ _ Hper) as [Ha _].
  pose proof PI_RGT_0. lra.
Qed.

Lemma gaussian_count_functional (terms : list surface_term) :
  forall n m, gaussian_count terms n -> gaussian_count terms m -> n = m.
Proof.
  induction terms as [| f terms IH]; intros n m Hn Hm.
  - inversion Hn; inversion Hm; congruence.
  - inversion Hn; inversion Hm; subst;
      try contradiction; try (f_equal; eauto); eauto.
Qed.

Lemma feltness_five_gaussians : gaussian_count feltness_summands 5.
Proof.
  unfold feltness_summands.
  apply gaussian_count_miss; [exact base_not_gaussian|].
  apply gaussian_count_miss; [exact synergy_not_gaussian|].
  apply gaussian_count_hit; [exact uncanny_dip_gaussian|].
  apply gaussian_count_hit; [exact ava_peak_gaussian|].
  apply gaussian_count_hit; [exact pet_peak_gaussian|].
  apply gaussian_count_hit; [exact human_peak_gaussian|].
  apply gaussian_count_hit; [exact tool_valley_gaussian|].
  apply gaussian_count_miss; [exact ripples_not_gaussian|].
  constructor.
Qed.

Lemma feltness_surface_is_sum (e p : R) :
  feltness_surface e p = sum_terms feltness_summands e p.
Proof.
  unfold feltness_surface, sum_terms, feltness_summands.
  cbn [fold_left]. lra.
Qed.

(** C4, as stated: [feltness_surface] is not a sum of 8 terms of which
    exactly 4 are bumps or dips; the script adds five of them
    ([uncanny_dip], [ava_peak], [pet_peak], [human_peak], [tool_valley]). *)
Theorem feltness_not_four_gaussians :
  ~ (length feltness_summands = 8%nat /\
     (forall e p, feltness_surface e p = sum_terms feltness_summands e p) /\
     gaussian_count feltness_summands 4).
Proof.
  intros (_ & _ & H4).
  pose proof (gaussian_count_functional _ _ _ H4 feltness_five_gaussians).
  discriminate.
Qed.

(** C4, amended: [feltness_surface] is the sum of its 8 summands, and
    exactly 5 of them are bumps or dips of the form
    [amplitude * exp (-((a - center_a)^2 / width_a + (b - center_b)^2 / width_b)]
    with an amplitude other than zero and positive widths: [uncanny_dip],
    [ava_peak], [pet_peak], [human_peak] and [tool_valley], with the
    amplitudes, centres and widths below.  These five are the localized
    summands: each summand is a bump or dip exactly when it is
    localized. *)
Theorem feltness_eight_terms_five_gaussians :
  length feltness_summands = 8%nat /\
  (forall e p, feltness_surface e p = sum_terms feltness_summands e p) /\
  gaussian_count feltness_summands 5 /\
  (forall e p,
     Feltness.uncanny_dip e p = gaussian (-0.3) 0.6 0.05 0.2 0.08 e p /\
     Feltness.ava_peak e p = gaussian 0.2 0.85 0.03 0.5 0.05 e p /\
     Feltness.pet_peak e p = gaussian 0.15 0.6 0.04 0.8 0.04 e p /\
     Feltness.human_peak e p = gaussian 0.3 0.95 0.02 0.95 0.02 e p /\
     Feltness.tool_valley e p = gaussian (-0.1) 0.1 0.05 0.1 0.05 e p) /\
  (forall f, In f feltness_summands -> (gaussian_shaped f <-> localized f)).
Proof.
  split; [reflexivity|]. split; [exact feltness_surface_is_sum|].
  split; [exact feltness_five_gaussians|]. split.
  - intros e p. repeat split.
  - intros f Hf. unfold feltness_summands in Hf. cbn [In] in Hf.
    destruct Hf as [<- | [<- | [<- | [<- | [<- | [<- | [<- | [<- | []]]]]]]]].
    + split; intros H;
        [destruct (base_not_gaussian H) | destruct (base_not_localized H)].
    + split; intros H;
        [destruct (synergy_not_gaussian H) | destruct (synergy_not_localized H)].
    + split; intros _;
        [exact (gaussian_shaped_localized _ uncanny_dip_gaussian)
        | exact uncanny_dip_gaussian].
    + split; intros _;
        [exact (gaussian_shaped_localized _ ava_peak_gaussian)
        | exact ava_peak_gaussian].
    + split; intros _;
        [exact (gaussian_shaped_localized _ pet_peak_gaussian)
        | exact pet_peak_gaussian].
    + split; intros _;
        [exact (gaussian_shaped_localized _ human_peak_gaussian)
        | exact human_peak_gaussian].
    + split; intros _;
        [exact (gaussian_shaped_localized _ tool_valley_gaussian)
        | exact tool_valley_gaussian].
    + split; intros H;
        [destruct (ripples_not_gaussian H) | destruct (ripples_not_localized H)].
Qed.

(** ** Arrays *)

Section ArrayFacts.

Lemma arange_length (n : nat) : length (Np.arange n) = n.
Proof. unfold Np.arange. now rewrite length_map, length_seq. Qed.

Lemma nth_arange (n k : nat) (d : R) :
  (k < n)%nat -> nth k (Np.arange n) d = INR k.
Proof.
  intros Hk. unfold Np.arange.
  rewrite (nth_indep _ d (INR 0)) by now rewrite length_map, length_seq.
  rewrite map_nth, seq_nth by assumption. reflexivity.
Qed.

Lemma removelast_length (y : list R) :
  length (removelast y) = (length y - 1)%nat.
Proof. rewrite removelast_firstn_len, length_firstn. lia. Qed.

Lemma set_last_length (y : list R) (v : R) :
  length (Np.set_last y v) = length y.
Proof.
  destruct y as [| a y]; [reflexivity|].
  unfold Np.set_last. rewrite length_app, removelast_length. simpl. lia.
Qed.

Lemma nth_set_last_last (y : list R) (v d : R) :
  y <> [] -> nth (length y - 1) (Np.set_last y v) d = v.
Proof.
  intros Hy. destruct y as [| a y]; [contradiction|].
  unfold Np.set_last.
  rewrite app_nth2 by (rewrite removelast_length; simpl; lia).
  rewrite removelast_length. simpl length.
  replace (S (length y) - 1 - (S (length y) - 1))%nat with 0%nat by lia.
  reflexivity.
Qed.

Lemma nth_removelast (y : list R) (k : nat) (d : R) :
  (k < length y - 1)%nat -> nth k (removelast y) d = nth k y d.
Proof.
  revert k. induction y as [| a y IH]; intros k Hk; [simpl in Hk; lia|].
  destruct y as [| b y]; [simpl in Hk; lia|].
  change (removelast (a :: b :: y)) with (a :: removelast (b :: y)).
  destruct k as [| k]; [reflexivity|].
  simpl nth at 2. cbn [nth]. apply IH. simpl in *. lia.
Qed.

Lemma nth_set_last_other (y : list R) (v d : R) (k : nat) :
  (k < length y - 1)%nat -> nth k (Np.set_last y v) d = nth k y d.
Proof.
  intros Hk. destruct y as [| a y]; [simpl in Hk; lia|].
  unfold Np.set_last.
  rewrite app_nth1 by (rewrite removelast_length; exact Hk).
  now apply nth_removelast.
Qed.

Lemma zip_with_length (f : R -> R -> R) (a b : list R) :
  length a = length b -> length (Np.zip_with f a b) = length a.
Proof.
  intros H. unfold Np.zip_with.
  rewrite length_map, length_combine. lia.
Qed.

Lemma nth_zip_with (f : R -> R -> R) (a b : list R) (k : nat) (d : R) :
  (k < length a)%nat -> length a = length b ->
  nth k (Np.zip_with f a b) d = f (nth k a d) (nth k b d).
Proof.
  intros Hk Hlen. unfold Np.zip_with.
  rewrite (nth_indep _ d (f d d))
    by (rewrite length_map, length_combine; lia).
  change (f d d) with ((fun p => f (fst p) (snd p)) (d, d)).
  rewrite map_nth, combine_nth by assumption. reflexivity.
Qed.

End ArrayFacts.

(** ** [np.linspace] *)

Section LinspaceFacts.

Variables start stop : R.

Lemma linspace_negative (num : Z) :
  (num < 0)%Z -> Np.linspace start stop num = Py.Raise Py.ValueError.
Proof.
  intros H. unfold Np.linspace.
  now replace (num <? 0)%Z with true by (symmetry; apply Z.ltb_lt; lia).
Qed.

Lemma linspace_single :
  Np.linspace start stop 1 = Py.Return [INR 0 * (stop - start) + start].
Proof. reflexivity. Qed.

(** For two samples or more both branches of the step computation give
    [k * step + start], and the last sample is [stop] itself. *)
Lemma linspace_many (num : Z) :
  (2 <= num)%Z ->
  Np.linspace start stop num =
  Py.Return
    (Np.set_last
       (map (fun v => v * ((stop - start) / IZR (num - 1)) + start)
            (Np.arange (Z.to_nat num)))
       stop).
Proof.
  intros H. unfold Np.linspace.
  replace (num <? 0)%Z with false by (symmetry; apply Z.ltb_ge; lia).
  replace (0 <? num - 1)%Z with true by (symmetry; apply Z.ltb_lt; lia).
  replace (1 <? num)%Z with true by (symmetry; apply Z.ltb_lt; lia).
  assert (Hdiv : IZR (num - 1) <> 0) by (apply not_0_IZR; lia).
  f_equal. f_equal.
  destruct (Req_dec_T ((stop - start) / IZR (num - 1)) 0) as [_ | _];
    rewrite map_map; apply map_ext; intros v; [field; exact Hdiv | reflexivity].
Qed.

Lemma linspace_length (num : Z) (t : list R) :
  Np.linspace start stop num = Py.Return t -> length t = Z.to_nat num.
Proof.
  unfold Np.linspace. destruct (num <? 0)%Z; [discriminate|].
  intros H. injection H as <-.
  assert (Hlen : forall f g : R -> R,
             length (map f (map g (Np.arange (Z.to_nat num)))) = Z.to_nat num)
    by (intros; now rewrite !length_map, arange_length).
  destruct (1 <? num)%Z; [rewrite set_last_length|];
    destruct (0 <? num - 1)%Z; try destruct (Req_dec_T _ _); apply Hlen.
Qed.

End LinspaceFacts.

Lemma last_as_nth (l : list R) (d : R) : last l d = nth (length l - 1) l d.
Proof.
  induction l as [| a l IH]; [reflexivity|].
  destruct l as [| b l]; [reflexivity|].
  change (last (a :: b :: l) d) with (last (b :: l) d). rewrite IH.
  simpl. now rewrite Nat.sub_0_r.
Qed.

Example linspace_three : Np.linspace 0 180 3 = Py.Return [0; 90; 180].
Proof.
  rewrite linspace_many by lia. f_equal.
  change (Z.to_nat 3) with 3%nat. change (3 - 1)%Z with 2%Z.
  unfold Np.arange, Np.set_last. cbn [seq map removelast app].
  repeat (apply (f_equal2 cons); [simpl; lra|]). reflexivity.
Qed.

(** The time axis of the script: [np.linspace(0, 180, num_points)]. *)
Lemma time_axis_many (N : Z) :
  (2 <= N)%Z ->
  exists t,
    Np.linspace 0 180 N = Py.Return t /\
    length t = Z.to_nat N /\
    strictly_increasing t /\
    nth 0 t 0 = 0 /\
    last t 0 = 180.
Proof.
  intros HN. rewrite (linspace_many 0 180 N HN).
  set (n := Z.to_nat N).
  set (step := (180 - 0) / IZR (N - 1)).
  set (g := fun v : R => v * step + 0).
  assert (Hn : (2 <= n)%nat) by (unfold n; lia).
  assert (Hd : 0 < IZR (N - 1)) by (apply IZR_lt; lia).
  assert (Hstep : 0 < step) by (unfold step; apply Rdiv_lt_0_compat; lra).
  assert (Hlen : length (map g (Np.arange n)) = n)
    by now rewrite length_map, arange_length.
  assert (Hne : map g (Np.arange n) <> [])
    by (intros E; rewrite E in Hlen; simpl in Hlen; lia).
  assert (Hnth : forall k, (k < n)%nat ->
             nth k (map g (Np.arange n)) 0 = INR k * step + 0).
  { intros k Hk.
    rewrite (nth_indep _ 0 (g 0)) by (rewrite Hlen; exact Hk).
    rewrite map_nth, nth_arange by exact Hk. reflexivity. }
  assert (Hbelow : forall k, (k < n - 1)%nat -> INR k * step + 0 < 180).
  { intros k Hk.
    assert (INR k < IZR (N - 1)).
    { rewrite INR_IZR_INZ. apply IZR_lt. unfold n in Hk. lia. }
    unfold step. replace (INR k * ((180 - 0) / IZR (N - 1)) + 0)
      with (180 * (INR k * / IZR (N - 1))) by (field; lra).
    assert (INR k * / IZR (N - 1) < 1).
    { rewrite <- (Rinv_r (IZR (N - 1))) by lra.
      apply Rmult_lt_compat_r; [now apply Rinv_0_lt_compat | assumption]. }
    lra. }
  eexists; split; [reflexivity|].
  split; [now rewrite set_last_length|].
  split; [| split].
  - intros j k [Hjk Hk]. rewrite set_last_length, Hlen in Hk.
    rewrite (nth_set_last_other _ _ _ j) by (rewrite Hlen; lia).
    rewrite Hnth by lia.
    destruct (Nat.eq_dec k (n - 1)) as [-> | Hkn].
    + rewrite <- Hlen at 1. rewrite nth_set_last_last by exact Hne.
      apply Hbelow. lia.
    + rewrite nth_set_last_other by (rewrite Hlen; lia).
      rewrite Hnth by lia.
      assert (INR j < INR k) by (apply lt_INR; lia).
      apply Rplus_lt_compat_r, Rmult_lt_compat_r; assumption.
  - rewrite nth_set_last_other by (rewrite Hlen; lia).
    rewrite Hnth by lia. simpl. lra.
  - rewrite last_as_nth, set_last_length.
    now apply nth_set_last_last.
Qed.

(** ** [uniform_filter1d] *)

Section FilterFacts.

Lemma fold_left_Rplus_acc (l : list R) (a : R) :
  fold_left Rplus l a = a + fold_left Rplus l 0.
Proof.
  revert a. induction l as [| x l IH]; intros a; simpl; [lra|].
  rewrite (IH (a + x)), (IH (0 + x)). lra.
Qed.

Lemma firstn_succ_skipn (s : nat) (l r : list R) (b : R) :
  skipn s l = b :: r -> firstn (S s) l = firstn s l ++ [b].
Proof.
  revert l. induction s as [| s IH]; intros l H.
  - simpl in H. subst l. reflexivity.
  - destruct l as [| a l]; [discriminate|].
    simpl in H. change (firstn (S (S s)) (a :: l)) with (a :: firstn (S s) l).
    rewrite (IH l H). reflexivity.
Qed.

(** One step of the sliding loop keeps [tmp] equal to the sum of the
    window. *)
Lemma window_sum_slide (size : nat) (a b : R) (l1 l2 : list R) :
  (1 <= size)%nat -> skipn size (a :: l1) = b :: l2 ->
  window_sum size (a :: l1) + (b - a) = window_sum size l1 /\
  skipn size l1 = l2.
Proof.
  intros Hs H. destruct size as [| s]; [lia|].
  simpl in H. unfold window_sum.
  rewrite (firstn_succ_skipn s l1 l2 b H).
  change (firstn (S s) (a :: l1)) with (a :: firstn s l1).
  rewrite fold_left_app. simpl.
  rewrite (fold_left_Rplus_acc _ (0 + a)). split; [lra|].
  clear -H. revert l1 H. induction s as [| s IH]; intros l1 H.
  - simpl in H. now subst l1.
  - destruct l1 as [| x l1]; [discriminate|]. simpl in H. simpl.
    destruct s; [simpl in *; now subst l1 | now apply IH].
Qed.

Lemma slide_means (size count : nat) :
  (1 <= size)%nat ->
  forall l1 : list R,
    (count <= length (skipn size l1))%nat ->
    Ndimage.slide size (window_sum size l1) l1 (skipn size l1) count =
    map (fun k => window_sum size (skipn k l1) / INR size) (seq 1 count).
Proof.
  intros Hs. induction count as [| count IH]; intros l1 Hc.
  - destruct l1, (skipn size _); reflexivity.
  - destruct l1 as [| a l1].
    { rewrite skipn_nil in Hc. simpl in Hc. lia. }
    destruct (skipn size (a :: l1)) as [| b l2] eqn:E; [simpl in Hc; lia|].
    destruct (window_sum_slide size a b l1 l2 Hs E) as [Hsum Hskip].
    cbn [Ndimage.slide]. cbv zeta. rewrite Hsum. subst l2.
    rewrite IH by (simpl in Hc; lia).
    cbn [seq map]. f_equal.
    rewrite <- (seq_shift count 1), map_map. reflexivity.
Qed.

Lemma extend_line_length (line : list R) (before after : nat) :
  length (Ndimage.extend_line line before after) =
  (before + length line + after)%nat.
Proof. unfold Ndimage.extend_line. now rewrite length_map, length_seq. Qed.

(** The filter returns, for each position, the mean of the [size] samples
    of the extended line that start there. *)
Lemma uniform_filter1d_means (input : list R) (size : nat) :
  (1 <= size)%nat -> input <> [] ->
  Ndimage.uniform_filter1d input size =
  map (fun k =>
         window_sum size
           (skipn k (Ndimage.extend_line input (size / 2)
                       (size - size / 2 - 1))) / INR size)
      (seq 0 (length input)).
Proof.
  intros Hs Hne. destruct input as [| x input]; [contradiction|].
  unfold Ndimage.uniform_filter1d. cbv zeta.
  set (iline := Ndimage.extend_line (x :: input) (size / 2) (size - size / 2 - 1)).
  change (fold_left Rplus (firstn size iline) 0) with (window_sum size iline).
  rewrite slide_means.
  - cbn [length]. rewrite Nat.sub_succ, Nat.sub_0_r.
    cbn [seq map]. reflexivity.
  - exact Hs.
  - rewrite length_skipn. unfold iline. rewrite extend_line_length.
    pose proof (Nat.div_lt size 2 ltac:(lia) ltac:(lia)). simpl length. lia.
Qed.

Lemma uniform_filter1d_length (input : list R) (size : nat) :
  (1 <= size)%nat ->
  length (Ndimage.uniform_filter1d input size) = length input.
Proof.
  intros Hs. destruct input as [| x input]; [reflexivity|].
  rewrite uniform_filter1d_means by (trivial; discriminate).
  now rewrite length_map, length_seq.
Qed.

End FilterFacts.

(** *** Concrete lines *)

Ltac eval_reflect_index :=
  repeat match goal with
  | |- context [Ndimage.reflect_index ?n ?k] =>
      let v := eval vm_compute in (Ndimage.reflect_index n k) in
      change (Ndimage.reflect_index n k) with v
  end.

(** [a b c d] is continued to the left by [a b c d d c b a ...] read
    backwards and to the right by [d c b a a b ...]. *)
Example reflect_index_before :
  map (Ndimage.reflect_index 4) [-1; -2; -3; -4; -5]%Z = [0; 1; 2; 3; 3]%nat.
Proof. reflexivity. Qed.

Example reflect_index_after :
  map (Ndimage.reflect_index 4) [4; 5; 6; 7; 8]%Z = [3; 2; 1; 0; 0]%nat.
Proof. reflexivity. Qed.

(** The example of the SciPy documentation,
    [uniform_filter1d([2, 8, 0, 4, 1, 9, 9, 0], size=3)], on doubles: the
    integer result printed there, [[4, 3, 4, 1, 4, 6, 6, 3]], is the floor
    of these means. *)
Example uniform_filter1d_documented :
  Ndimage.uniform_filter1d [2; 8; 0; 4; 1; 9; 9; 0] 3 =
  [4; 10 / 3; 4; 5 / 3; 14 / 3; 19 / 3; 6; 3].
Proof.
  unfold Ndimage.uniform_filter1d, Ndimage.extend_line, Ndimage.extended.
  change (3 / 2)%nat with 1%nat.
  cbn [length seq map Nat.add Nat.sub Z.of_nat].
  eval_reflect_index.
  cbn [nth firstn skipn fold_left Ndimage.slide length Nat.sub].
  cbv zeta.
  replace (INR 3) with 3 by (simpl; lra).
  repeat (apply (f_equal2 cons); [lra|]). reflexivity.
Qed.

(** *** The moving average stays between the bounds of its input *)

Section FilterBounds.

Variables lo hi : R.

Lemma reflect_index_lt (n : nat) (k : Z) :
  (0 < n)%nat -> (Ndimage.reflect_index n k < n)%nat.
Proof.
  intros Hn. unfold Ndimage.reflect_index. cbv zeta.
  pose proof (Z.mod_pos_bound k (2 * Z.of_nat n) ltac:(lia)) as Hm.
  destruct (Z.ltb_spec (k mod (2 * Z.of_nat n)) (Z.of_nat n)); lia.
Qed.

Lemma extended_within (line : list R) (k : Z) :
  line <> [] -> Forall (within lo hi) line ->
  within lo hi (Ndimage.extended line k).
Proof.
  intros Hne Hall. unfold Ndimage.extended.
  apply (proj1 (Forall_forall _ _) Hall), nth_In, reflect_index_lt.
  destruct line; [contradiction | simpl; lia].
Qed.

Lemma extend_line_within (line : list R) (before after : nat) :
  line <> [] -> Forall (within lo hi) line ->
  Forall (within lo hi) (Ndimage.extend_line line before after).
Proof.
  intros Hne Hall. unfold Ndimage.extend_line.
  apply Forall_forall. intros v Hv. apply in_map_iff in Hv.
  destruct Hv as (j & <- & _). now apply extended_within.
Qed.

Lemma sum_within (l : list R) :
  Forall (within lo hi) l ->
  INR (length l) * lo <= fold_left Rplus l 0 <= INR (length l) * hi.
Proof.
  induction 1 as [| v l Hv _ IH].
  - simpl. lra.
  - cbn [fold_left]. rewrite fold_left_Rplus_acc.
    change (length (v :: l)) with (S (length l)). rewrite S_INR.
    unfold within in Hv. lra.
Qed.

Lemma Forall_firstn_local (P : R -> Prop) (l : list R) (n : nat) :
  Forall P l -> Forall P (firstn n l).
Proof.
  intros Hall. revert n.
  induction Hall as [| v l Hv _ IH]; intros [| n]; simpl; auto.
Qed.

Lemma Forall_skipn_local (P : R -> Prop) (l : list R) (n : nat) :
  Forall P l -> Forall P (skipn n l).
Proof.
  intros Hall. revert n.
  induction Hall as [| v l Hv Hl IH]; intros [| n]; simpl; auto.
Qed.

Lemma Forall_firstn_skipn (P : R -> Prop) (l : list R) (k size : nat) :
  Forall P l -> Forall P (firstn size (skipn k l)).
Proof. intros Hall. now apply Forall_firstn_local, Forall_skipn_local. Qed.

Lemma window_mean_within (l : list R) (k size : nat) :
  (1 <= size)%nat -> (k + size <= length l)%nat ->
  Forall (within lo hi) l ->
  within lo hi (window_sum size (skipn k l) / INR size).
Proof.
  intros Hs Hk Hall. unfold window_sum.
  pose proof (sum_within _ (Forall_firstn_skipn _ l k size Hall)) as Hsum.
  rewrite length_firstn, length_skipn in Hsum.
  replace (Nat.min size (length l - k)) with size in Hsum by lia.
  assert (Hpos : 0 < INR size) by (apply lt_0_INR; lia).
  unfold within, Rdiv. split.
  - apply Rmult_le_reg_r with (INR size); [exact Hpos|].
    rewrite Rmult_assoc, Rinv_l by lra. lra.
  - apply Rmult_le_reg_r with (INR size); [exact Hpos|].
    rewrite Rmult_assoc, Rinv_l by lra. lra.
Qed.

Lemma uniform_filter1d_within (input : list R) (size : nat) :
  (1 <= size)%nat -> Forall (within lo hi) input ->
  Forall (within lo hi) (Ndimage.uniform_filter1d input size).
Proof.
  intros Hs Hall. destruct input as [| x input]; [constructor|].
  rewrite uniform_filter1d_means by (trivial; discriminate).
  apply Forall_forall. intros v Hv. apply in_map_iff in Hv.
  destruct Hv as (k & <- & Hk). apply in_seq in Hk.
  apply window_mean_within; [exact Hs | |].
  - rewrite extend_line_length.
    pose proof (Nat.div_lt size 2 ltac:(lia) ltac:(lia)). lia.
  - apply extend_line_within; [discriminate | exact Hall].
Qed.

End FilterBounds.

Lemma clip_within (lo hi v : R) : lo <= hi -> within lo hi (Np.clip lo hi v).
Proof.
  intros H. unfold within, Np.clip, Rmin, Rmax.
  destruct (Rle_dec v lo); destruct (Rle_dec _ hi); lra.
Qed.

(** ** The trajectory generator *)

Section GeneratorFacts.

Lemma float_max_int_large : (1000 < Py.float_max_int)%Z.
Proof. vm_compute. reflexivity. Qed.

Lemma valid_index_convertible (i : Z) :
  valid_index i -> float_convertible i /\ float_convertible (i - 2).
Proof.
  unfold valid_index, float_convertible. intros H.
  pose proof float_max_int_large. lia.
Qed.

Lemma float_of_int_convertible (n : Z) :
  float_convertible n -> Py.float_of_int n = Py.Return (IZR n).
Proof.
  unfold float_convertible, Py.float_of_int. intros H.
  now replace (Z.abs n <? Py.float_max_int)%Z with true
    by (symmetry; apply Z.ltb_lt; exact H).
Qed.

Lemma float_of_int_overflow (n : Z) :
  ~ float_convertible n -> Py.float_of_int n = Py.Raise Py.OverflowError.
Proof.
  unfold float_convertible, Py.float_of_int. intros H.
  now replace (Z.abs n <? Py.float_max_int)%Z with false
    by (symmetry; apply Z.ltb_ge; lia).
Qed.

(** When the time axis is built and both conversions succeed, the
    generator returns the three arrays of the staged definitions. *)
Lemma generate_returns (i N : Z) (t : list R) :
  Np.linspace 0 180 N = Py.Return t ->
  float_convertible (i - 2) -> float_convertible i ->
  generate_trajectory_through_landscape i N =
  Py.Return (t, smoothed_y i t, elevation t (smoothed_y i t)).
Proof.
  intros Ht H2 Hi. unfold generate_trajectory_through_landscape.
  rewrite Ht. cbn [Py.bind].
  rewrite (float_of_int_convertible _ H2). cbn [Py.bind].
  rewrite (float_of_int_convertible _ Hi). cbn [Py.bind].
  reflexivity.
Qed.

Lemma drifted_y_length (i : Z) (t : list R) :
  length (drifted_y i t) = length t.
Proof.
  unfold drifted_y. cbv zeta.
  rewrite zip_with_length; rewrite !length_map; reflexivity.
Qed.

Lemma clamped_y_length (i : Z) (t : list R) :
  length (clamped_y i t) = length t.
Proof. unfold clamped_y. now rewrite length_map, drifted_y_length. Qed.

Lemma smoothed_y_length (i : Z) (t : list R) :
  length (smoothed_y i t) = length t.
Proof.
  unfold smoothed_y.
  rewrite uniform_filter1d_length by lia. apply clamped_y_length.
Qed.

Lemma elevation_length (t y : list R) :
  length t = length y -> length (elevation t y) = length t.
Proof. intros H. unfold elevation. now apply zip_with_length. Qed.

Lemma clamped_y_within (i : Z) (t : list R) :
  Forall (within 0.2 1.8) (clamped_y i t).
Proof.
  unfold clamped_y. apply Forall_forall. intros v Hv.
  apply in_map_iff in Hv. destruct Hv as (u & <- & _).
  apply clip_within. lra.
Qed.

Lemma smoothed_y_within (i : Z) (t : list R) :
  Forall (within 0.2 1.8) (smoothed_y i t).
Proof.
  unfold smoothed_y. apply uniform_filter1d_within; [lia|].
  apply clamped_y_within.
Qed.

(** The time axis for any positive count. *)
Lemma time_axis (N : Z) :
  (1 <= N)%Z ->
  exists t,
    Np.linspace 0 180 N = Py.Return t /\
    length t = Z.to_nat N /\
    strictly_increasing t /\
    nth 0 t 0 = 0 /\
    ((2 <= N)%Z -> last t 0 = 180) /\
    (N = 1%Z -> t = [0]).
Proof.
  intros HN. destruct (Z.eq_dec N 1) as [-> | Hne].
  - exists [0]. split; [| split; [| split; [| split; [| split]]]].
    + rewrite linspace_single. do 2 f_equal. simpl. lra.
    + reflexivity.
    + intros j k [Hjk Hk]. simpl in Hk. lia.
    + reflexivity.
    + lia.
    + reflexivity.
  - destruct (time_axis_many N ltac:(lia)) as (t & Ht & Hlen & Hinc & H0 & Hl).
    exists t. repeat split; auto. lia.
Qed.

End GeneratorFacts.

(** ** Claims about the trajectory generator *)

(** C1, as stated, fails for a single point: [trajectory(0, 1)] returns
    the time axis [[0]], whose last value is [0], not the interval
    maximum [180]. *)
Theorem single_point_axis_ends_at_start :
  exists tr,
    generate_trajectory_through_landscape 0 1 = Py.Return tr /\
    length (traj_t tr) = 1%nat /\
    last (traj_t tr) 0 = 0 /\
    last (traj_t tr) 0 <> 180.
Proof.
  destruct (valid_index_convertible 0 ltac:(unfold valid_index; lia))
    as [Hi H2].
  destruct (time_axis 1 ltac:(lia)) as (t & Ht & _ & _ & _ & _ & H1).
  specialize (H1 eq_refl). subst t.
  eexists. split; [exact (generate_returns 0 1 _ Ht H2 Hi)|].
  unfold traj_t. cbn [fst last length]. repeat split; lra.
Qed.

(** C1, amended.  For every index in [0..4] and every positive count [N]
    the returned time axis has length [N], is strictly increasing and
    starts at [0]; it ends at [180] when [N >= 2], and for [N = 1] it is
    the single sample [0]. *)
Theorem time_axis_of_trajectory (i N : Z) :
  valid_index i -> (1 <= N)%Z ->
  exists tr,
    generate_trajectory_through_landscape i N = Py.Return tr /\
    length (traj_t tr) = Z.to_nat N /\
    strictly_increasing (traj_t tr) /\
    nth 0 (traj_t tr) 0 = 0 /\
    ((2 <= N)%Z -> last (traj_t tr) 0 = 180) /\
    (N = 1%Z -> traj_t tr = [0]).
Proof.
  intros Hv HN.
  destruct (valid_index_convertible i Hv) as [Hi H2].
  destruct (time_axis N HN) as (t & Ht & Hprops).
  eexists. split; [exact (generate_returns i N t Ht H2 Hi)|].
  exact Hprops.
Qed.

Lemma time_axis_of_trajectory_witness :
  exists tr,
    generate_trajectory_through_landscape 2 200 = Py.Return tr /\
    length (traj_t tr) = Z.to_nat 200 /\
    strictly_increasing (traj_t tr) /\
    nth 0 (traj_t tr) 0 = 0 /\
    ((2 <= 200)%Z -> last (traj_t tr) 0 = 180) /\
    (200%Z = 1%Z -> traj_t tr = [0]).
Proof.
  apply (time_axis_of_trajectory 2 200); [unfold valid_index; lia | lia].
Defined.

(** C2.  For every index in [0..4] and every positive count [N], each
    returned axis-2 value, after clamping and after the moving average,
    lies in [[0.2, 1.8]]. *)
Theorem axis2_within_clamp (i N : Z) :
  valid_index i -> (1 <= N)%Z ->
  exists tr,
    generate_trajectory_through_landscape i N = Py.Return tr /\
    length (traj_y tr) = Z.to_nat N /\
    Forall (within 0.2 1.8) (traj_y tr).
Proof.
  intros Hv HN.
  destruct (valid_index_convertible i Hv) as [Hi H2].
  destruct (time_axis N HN) as (t & Ht & Hlen & _).
  eexists. split; [exact (generate_returns i N t Ht H2 Hi)|].
  unfold traj_y. cbn [fst snd]. split.
  - now rewrite smoothed_y_length.
  - apply smoothed_y_within.
Qed.

Lemma axis2_within_clamp_witness :
  exists tr,
    generate_trajectory_through_landscape 2 200 = Py.Return tr /\
    length (traj_y tr) = Z.to_nat 200 /\
    Forall (within 0.2 1.8) (traj_y tr).
Proof.
  apply (axis2_within_clamp 2 200); [unfold valid_index; lia | lia].
Defined.

(** C5.  For every index in [0..4] and every positive count [N], the
    three returned sequences have length [N] and the [k]-th elevation is
    [constraint_surface] at the [k]-th returned (axis-1, axis-2) pair plus
    the offset [0.15]. *)
Theorem elevation_follows_surface (i N : Z) :
  valid_index i -> (1 <= N)%Z ->
  exists tr,
    generate_trajectory_through_landscape i N = Py.Return tr /\
    length (traj_t tr) = Z.to_nat N /\
    length (traj_y tr) = Z.to_nat N /\
    length (traj_z tr) = Z.to_nat N /\
    forall k, (k < Z.to_nat N)%nat ->
      nth k (traj_z tr) 0 =
      constraint_surface (nth k (traj_t tr) 0) (nth k (traj_y tr) 0) + 0.15.
Proof.
  intros Hv HN.
  destruct (valid_index_convertible i Hv) as [Hi H2].
  destruct (time_axis N HN) as (t & Ht & Hlen & _).
  eexists. split; [exact (generate_returns i N t Ht H2 Hi)|].
  unfold traj_t, traj_y, traj_z. cbn [fst snd].
  assert (Hy : length (smoothed_y i t) = length t) by apply smoothed_y_length.
  repeat split.
  - exact Hlen.
  - now rewrite Hy.
  - rewrite elevation_length by (symmetry; exact Hy). exact Hlen.
  - intros k Hk. unfold elevation.
    rewrite nth_zip_with by (rewrite ?Hy; lia). reflexivity.
Qed.

Lemma elevation_follows_surface_witness :
  exists tr,
    generate_trajectory_through_landscape 4 200 = Py.Return tr /\
    length (traj_t tr) = Z.to_nat 200 /\
    length (traj_y tr) = Z.to_nat 200 /\
    length (traj_z tr) = Z.to_nat 200 /\
    forall k, (k < Z.to_nat 200)%nat ->
      nth k (traj_z tr) 0 =
      constraint_surface (nth k (traj_t tr) 0) (nth k (traj_y tr) 0) + 0.15.
Proof.
  apply (elevation_follows_surface 4 200); [unfold valid_index; lia | lia].
Defined.

(** The reflected line of a single sample holds that sample at every
    position. *)
Lemma extended_single (c : R) (k : Z) : Ndimage.extended [c] k = c.
Proof.
  unfold Ndimage.extended.
  pose proof (reflect_index_lt 1 k ltac:(lia)) as H. cbn [length] in *.
  now replace (Ndimage.reflect_index 1 k) with 0%nat by lia.
Qed.

(** On a single sample the filter returns the mean of its window, ten
    copies of the sample, as the sum from zero divided by ten. *)
Lemma uniform_filter1d_single_mean (c : R) :
  window [c] 10 0 = repeat c 10 /\
  Ndimage.uniform_filter1d [c] 10 =
    [fold_left Rplus (window [c] 10 0) 0 / INR 10].
Proof.
  assert (Hw : window [c] 10 0 = repeat c 10).
  { unfold window. cbn [seq map repeat]. now rewrite !extended_single. }
  split; [exact Hw|].
  rewrite uniform_filter1d_means by (lia || discriminate).
  cbn [length seq map skipn]. unfold window_sum. rewrite Hw.
  unfold Ndimage.extend_line.
  change (10 / 2 + length [c] + (10 - 10 / 2 - 1))%nat with 10%nat.
  cbn [seq map firstn repeat]. now rewrite !extended_single.
Qed.

(** C7.  For every index in [0..4] the call with [N = 1] returns, and the
    trajectory is the single point [(0, y0, constraint_surface 0 y0 + 0.15)].
    The smoothing pass degenerates to a single-sample average: its window
    of ten holds ten reflected copies of the one clamped sample [c], and
    [y0] is their mean, the sum of the ten copies from zero divided by
    ten. *)
Theorem single_point_trajectory (i : Z) :
  valid_index i ->
  exists c y0,
    clamped_y i [0] = [c] /\
    window [c] 10 0 = repeat c 10 /\
    y0 = fold_left Rplus (window [c] 10 0) 0 / INR 10 /\
    generate_trajectory_through_landscape i 1 =
      Py.Return ([0], [y0], [constraint_surface 0 y0 + 0.15]).
Proof.
  intros Hv.
  destruct (valid_index_convertible i Hv) as [Hi H2].
  destruct (time_axis 1 ltac:(lia)) as (t & Ht & _ & _ & _ & _ & H1).
  specialize (H1 eq_refl). subst t.
  pose proof (clamped_y_length i [0]) as Hlen.
  destruct (clamped_y i [0]) as [| c [| c1 r]] eqn:Hc; try discriminate Hlen.
  destruct (uniform_filter1d_single_mean c) as [Hw Hf].
  exists c, (fold_left Rplus (window [c] 10 0) 0 / INR 10).
  split; [reflexivity|]. split; [exact Hw|]. split; [reflexivity|].
  rewrite (generate_returns i 1 [0] Ht H2 Hi).
  unfold smoothed_y. rewrite Hc, Hf. reflexivity.
Qed.

Lemma single_point_trajectory_witness :
  exists c y0,
    clamped_y 0 [0] = [c] /\
    window [c] 10 0 = repeat c 10 /\
    y0 = fold_left Rplus (window [c] 10 0) 0 / INR 10 /\
    generate_trajectory_through_landscape 0 1 =
      Py.Return ([0], [y0], [constraint_surface 0 y0 + 0.15]).
Proof.
  apply (single_point_trajectory 0). unfold valid_index. lia.
Defined.

(** C10, as stated, fails for an index too large for a double:
    [trajectory(2**1024, 1)] raises [OverflowError] at
    [(trajectory_id - 2) * 0.2]. *)
Theorem huge_index_raises :
  generate_trajectory_through_landscape (2 ^ 1024) 1 =
  Py.Raise Py.OverflowError.
Proof.
  unfold generate_trajectory_through_landscape.
  rewrite linspace_single. cbn [Py.bind].
  rewrite float_of_int_overflow; [reflexivity|].
  unfold float_convertible. apply Z.le_ngt.
  vm_compute. discriminate.
Qed.

(** C10, amended.  The generator checks nothing about its index: for
    every integer [i] such that [i] and [i - 2] convert to a double
    ([|i| < 2^1024 - 2^970] and likewise for [i - 2]), inside [0..4] or
    not, and every count [N] for which [np.linspace(0, 180, N)] returns
    the time axis [t], it returns [t] and two more sequences of the same
    length [N], built by the formulas of [smoothed_y] and [elevation].
    Whether the time axis can be built is up to NumPy, which refuses a
    negative count and a count too big for an array. *)
Theorem index_is_not_validated (i N : Z) (t : list R) :
  float_convertible i -> float_convertible (i - 2) ->
  Np.linspace 0 180 N = Py.Return t ->
  generate_trajectory_through_landscape i N =
    Py.Return (t, smoothed_y i t, elevation t (smoothed_y i t)) /\
  length t = Z.to_nat N /\
  length (smoothed_y i t) = Z.to_nat N /\
  length (elevation t (smoothed_y i t)) = Z.to_nat N.
Proof.
  intros Hi H2 Ht.
  pose proof (linspace_length _ _ _ _ Ht) as Hlen.
  assert (Hy : length (smoothed_y i t) = length t) by apply smoothed_y_length.
  split; [exact (generate_returns i N t Ht H2 Hi)|].
  split; [exact Hlen|]. split.
  - now rewrite Hy.
  - rewrite elevation_length by (symmetry; exact Hy). exact Hlen.
Qed.

Lemma index_is_not_validated_witness :
  ~ valid_index 7 /\
  generate_trajectory_through_landscape 7 3 =
    Py.Return ([0; 90; 180], smoothed_y 7 [0; 90; 180],
               elevation [0; 90; 180] (smoothed_y 7 [0; 90; 180])) /\
  length [0; 90; 180] = Z.to_nat 3 /\
  length (smoothed_y 7 [0; 90; 180]) = Z.to_nat 3 /\
  length (elevation [0; 90; 180] (smoothed_y 7 [0; 90; 180])) = Z.to_nat 3.
Proof.
  split; [unfold valid_index; lia|].
  apply (index_is_not_validated 7 3 [0; 90; 180]);
    [unfold float_convertible; vm_compute; reflexivity
    | unfold float_convertible; vm_compute; reflexivity
    | exact linspace_three].
Defined.

(** * Further properties of the code *)

(** ** [np.linspace] for any interval *)

Section LinspaceSamples.

Variables start stop : R.

Lemma linspace_zero : Np.linspace start stop 0 = Py.Return [].
Proof. reflexivity. Qed.

Lemma linspace_returns (num : Z) :
  (0 <= num)%Z -> exists t, Np.linspace start stop num = Py.Return t.
Proof.
  intros H. unfold Np.linspace.
  replace (num <? 0)%Z with false by (symmetry; apply Z.ltb_ge; lia).
  eexists. reflexivity.
Qed.

Lemma Forall_removelast_local (P : R -> Prop) (l : list R) :
  Forall P l -> Forall P (removelast l).
Proof.
  induction 1 as [| a l Ha Hl IH]; [constructor|].
  destruct l as [| b l]; [constructor|].
  change (removelast (a :: b :: l)) with (a :: removelast (b :: l)).
  now constructor.
Qed.

Lemma Forall_set_last (P : R -> Prop) (l : list R) (v : R) :
  Forall P l -> P v -> Forall P (Np.set_last l v).
Proof.
  intros Hl Hv. destruct l as [| a l]; [constructor|].
  unfold Np.set_last. apply Forall_app. split.
  - now apply Forall_removelast_local.
  - now repeat constructor.
Qed.

(** No sample leaves the interval. *)
Lemma linspace_within (num : Z) (t : list R) :
  start <= stop ->
  Np.linspace start stop num = Py.Return t ->
  Forall (within start stop) t.
Proof.
  intros Hle Ht.
  destruct (Z_lt_le_dec num 0) as [Hneg | Hnn].
  { rewrite linspace_negative in Ht by exact Hneg. discriminate. }
  destruct (Z.eq_dec num 0) as [-> | H0].
  { rewrite linspace_zero in Ht. injection Ht as <-. constructor. }
  destruct (Z.eq_dec num 1) as [-> | H1].
  { rewrite linspace_single in Ht. injection Ht as <-.
    constructor; [unfold within; simpl; lra | constructor]. }
  rewrite linspace_many in Ht by lia. injection Ht as <-.
  assert (Hd : 0 < IZR (num - 1)) by (apply IZR_lt; lia).
  apply Forall_set_last; [| unfold within; lra].
  apply Forall_forall. intros v Hv.
  apply in_map_iff in Hv. destruct Hv as (u & <- & Hu).
  unfold Np.arange in Hu. apply in_map_iff in Hu.
  destruct Hu as (j & <- & Hj). apply in_seq in Hj.
  assert (Hj0 : 0 <= INR j) by apply pos_INR.
  assert (Hj1 : INR j <= IZR (num - 1)).
  { rewrite INR_IZR_INZ. apply IZR_le. lia. }
  set (d := IZR (num - 1)) in *.
  assert (Hq : 0 <= INR j * / d <= 1).
  { split.
    - apply Rmult_le_pos; [exact Hj0 | left; now apply Rinv_0_lt_compat].
    - rewrite <- (Rinv_r d) by lra.
      apply Rmult_le_compat_r; [left; now apply Rinv_0_lt_compat | exact Hj1]. }
  replace (INR j * ((stop - start) / d) + start)
    with (start + (stop - start) * (INR j * / d)) by (field; lra).
  assert (0 <= (stop - start) * (INR j * / d)) by (apply Rmult_le_pos; lra).
  assert (0 <= (stop - start) * (1 - INR j * / d)) by (apply Rmult_le_pos; lra).
  unfold within. lra.
Qed.

(** Sample [k] of two or more, the last one included. *)
Lemma linspace_nth (num : Z) (t : list R) (k : nat) :
  (2 <= num)%Z ->
  Np.linspace start stop num = Py.Return t ->
  (k < Z.to_nat num)%nat ->
  nth k t 0 = start + INR k * ((stop - start) / IZR (num - 1)).
Proof.
  intros Hn Ht Hk. rewrite linspace_many in Ht by exact Hn. injection Ht as <-.
  set (step := (stop - start) / IZR (num - 1)).
  set (g := fun v : R => v * step + start).
  set (n := Z.to_nat num) in *.
  assert (Hd : 0 < IZR (num - 1)) by (apply IZR_lt; lia).
  assert (Hlen : length (map g (Np.arange n)) = n)
    by now rewrite length_map, arange_length.
  destruct (Nat.eq_dec k (n - 1)) as [-> | Hkn].
  - rewrite <- Hlen at 1. rewrite nth_set_last_last.
    + replace (INR (n - 1)) with (IZR (num - 1)).
      * unfold step. field. lra.
      * rewrite INR_IZR_INZ. f_equal. unfold n. lia.
    + intros E. rewrite E in Hlen. simpl in Hlen. unfold n in Hlen. lia.
  - rewrite nth_set_last_other by (rewrite Hlen; lia).
    rewrite (nth_indep _ 0 (g 0)) by (rewrite Hlen; exact Hk).
    rewrite map_nth, nth_arange by exact Hk. unfold g. lra.
Qed.

End LinspaceSamples.

(** X1.  [np.linspace(start, stop, num)] with two samples or more returns
    [num] evenly spaced samples: the first is [start], the last is [stop],
    consecutive samples differ by [(stop - start) / (num - 1)], and for
    [start <= stop] no sample leaves [[start, stop]].  The script calls it
    with (0, 180) and (0, 2), the feltness script with (0, 1). *)
Theorem linspace_evenly_spaced (start stop : R) (num : Z) :
  (2 <= num)%Z ->
  exists t,
    Np.linspace start stop num = Py.Return t /\
    length t = Z.to_nat num /\
    nth 0 t 0 = start /\
    last t 0 = stop /\
    (forall k, (S k < Z.to_nat num)%nat ->
       nth (S k) t 0 - nth k t 0 = (stop - start) / IZR (num - 1)) /\
    (start <= stop -> Forall (within start stop) t).
Proof.
  intros Hn.
  destruct (linspace_returns start stop num ltac:(lia)) as [t Et].
  pose proof (linspace_length _ _ _ _ Et) as Hlen.
  exists t. split; [exact Et|]. split; [exact Hlen|].
  split; [| split; [| split]].
  - rewrite (linspace_nth _ _ _ _ 0%nat Hn Et) by lia. simpl. lra.
  - rewrite last_as_nth, Hlen.
    rewrite (linspace_nth _ _ _ _ _ Hn Et) by lia.
    assert (Hd : 0 < IZR (num - 1)) by (apply IZR_lt; lia).
    replace (INR (Z.to_nat num - 1)) with (IZR (num - 1))
      by (rewrite INR_IZR_INZ; f_equal; lia).
    field. lra.
  - intros k Hk.
    rewrite (linspace_nth _ _ _ _ (S k) Hn Et) by lia.
    rewrite (linspace_nth _ _ _ _ k Hn Et) by lia.
    rewrite S_INR. lra.
  - intros Hle. exact (linspace_within _ _ _ _ Hle Et).
Qed.

Lemma linspace_evenly_spaced_witness :
  exists t,
    Np.linspace 0 2 80 = Py.Return t /\
    length t = Z.to_nat 80 /\
    nth 0 t 0 = 0 /\
    last t 0 = 2 /\
    (forall k, (S k < Z.to_nat 80)%nat ->
       nth (S k) t 0 - nth k t 0 = (2 - 0) / IZR (80 - 1)) /\
    (0 <= 2 -> Forall (within 0 2) t).
Proof. apply (linspace_evenly_spaced 0 2 80). lia. Defined.

(** X2.  The degenerate counts of [np.linspace]: a negative count raises
    [ValueError], a count of zero returns the empty array, and a count of
    one returns the single sample [start], whatever [stop] is. *)
Theorem linspace_degenerate_counts (start stop : R) (num : Z) :
  (num <= 1)%Z ->
  Np.linspace start stop num =
    if (num <? 0)%Z then Py.Raise Py.ValueError
    else if (num =? 0)%Z then Py.Return []
    else Py.Return [start].
Proof.
  intros Hn.
  destruct (Z.ltb_spec num 0) as [Hneg | Hnn].
  - now apply linspace_negative.
  - destruct (Z.eqb_spec num 0) as [-> | H0].
    + reflexivity.
    + replace num with 1%Z by lia. rewrite linspace_single.
      do 2 f_equal. simpl. lra.
Qed.

Lemma linspace_degenerate_counts_witness :
  Np.linspace 0 180 (-3) =
    if (-3 <? 0)%Z then Py.Raise Py.ValueError
    else if (-3 =? 0)%Z then Py.Return []
    else Py.Return [0].
Proof. apply (linspace_degenerate_counts 0 180 (-3)). lia. Defined.

(** ** [constraint_surface] outside the plotted domain *)

(** The four wave terms keep the surface within [1.25] of its radial
    term, whatever the point. *)
Lemma constraint_surface_waves (t y : R) :
  -1.25 <=
  constraint_surface t y + 0.0075 * ((t / 30 - 3) ^ 2 + (y * 2 - 2) ^ 2)
  <= 1.25.
Proof.
  unfold constraint_surface. cbv zeta.
  replace (t / 30.0) with (t / 30) by lra.
  replace (y * 2.0) with (y * 2) by lra.
  set (tn := t / 30). set (yn := y * 2).
  pose proof (product_unit_interval _ _ (sin_bounds (tn * 0.8))
                (cos_bounds (yn * 0.6))) as H1.
  pose proof (cos_bounds (tn * 1.5 + yn * 1.2)) as H2.
  pose proof (sin_bounds (tn * 3.0 - yn * 2.0)) as H3.
  pose proof (product_unit_interval _ _ (sin_bounds (tn * 2.0))
                (sin_bounds (yn * 1.5))) as H4.
  replace ((tn - 3.0) ^ 2) with ((tn - 3) ^ 2) by (simpl; lra).
  replace ((yn - 2.0) ^ 2) with ((yn - 2) ^ 2) by (simpl; lra).
  set (r := (tn - 3) ^ 2 + (yn - 2) ^ 2) in *.
  set (p1 := sin (tn * 0.8) * cos (yn * 0.6)) in *.
  set (p4 := sin (tn * 2.0) * sin (yn * 1.5)) in *.
  replace (0.5 * sin (tn * 0.8) * cos (yn * 0.6)) with (0.5 * p1)
    by (unfold p1; ring).
  replace (0.25 * sin (tn * 2.0) * sin (yn * 1.5)) with (0.25 * p4)
    by (unfold p4; ring).
  split; lra.
Qed.

Lemma falloff_radius_range (t y : R) :
  0 <= t <= 180 -> 0 <= y <= 2 ->
  0 <= (t / 30 - 3) ^ 2 + (y * 2 - 2) ^ 2 <= 13.
Proof.
  intros Ht Hy.
  set (tn := t / 30). set (yn := y * 2).
  assert (Htn : 0 <= tn <= 6) by (unfold tn; lra).
  assert (Hyn : 0 <= yn <= 4) by (unfold yn; lra).
  replace ((tn - 3) ^ 2) with (9 + tn * (tn - 6)) by (simpl; lra).
  replace ((yn - 2) ^ 2) with (4 + yn * (yn - 4)) by (simpl; lra).
  pose proof (Rle_0_sqr (tn - 3)) as Hst.
  pose proof (Rle_0_sqr (yn - 2)) as Hsy.
  unfold Rsqr in Hst, Hsy.
  assert (0 <= tn * (6 - tn)) by (apply Rmult_le_pos; lra).
  assert (0 <= yn * (4 - yn)) by (apply Rmult_le_pos; lra).
  lra.
Qed.

(** On the plotted domain the elevation stays in [[-1.3475, 1.25]]. *)
Lemma constraint_surface_range (t y : R) :
  0 <= t <= 180 -> 0 <= y <= 2 ->
  within (-1.3475) 1.25 (constraint_surface t y).
Proof.
  intros Ht Hy.
  pose proof (constraint_surface_waves t y) as Hw.
  pose proof (falloff_radius_range t y Ht Hy) as Hr.
  unfold within. lra.
Qed.

(** X3.  Without the domain restriction [constraint_surface] is still
    bounded above, by 1.25 at every point, but it is not bounded below:
    under any level [M] there is a point later than [t = 180], on the
    middle line [y = 1], whose elevation is below [M].  The radial falloff
    drags the surface down without limit. *)
Theorem constraint_surface_unbounded_below :
  (forall t y, constraint_surface t y <= 1.25) /\
  (forall M, exists t, 180 < t /\ constraint_surface t 1 < M).
Proof.
  split.
  - intros t y. pose proof (constraint_surface_waves t y) as Hw.
    pose proof (Rle_0_sqr (t / 30 - 3)) as Hst.
    pose proof (Rle_0_sqr (y * 2 - 2)) as Hsy.
    unfold Rsqr in Hst, Hsy.
    replace ((t / 30 - 3) ^ 2) with ((t / 30 - 3) * (t / 30 - 3)) in Hw
      by (simpl; lra).
    replace ((y * 2 - 2) ^ 2) with ((y * 2 - 2) * (y * 2 - 2)) in Hw
      by (simpl; lra).
    lra.
  - intros M.
    set (u := Rmax 0 (1.25 - M)).
    assert (Hu0 : 0 <= u) by apply Rmax_l.
    assert (Hu1 : 1.25 - M <= u) by apply Rmax_r.
    set (s := 4 + u / 0.0075).
    assert (Hq : 0 <= u / 0.0075).
    { apply Rmult_le_pos; [exact Hu0 | left; apply Rinv_0_lt_compat; lra]. }
    assert (Hs : 4 <= s) by (unfold s; lra).
    exists (30 * (s + 3)). split; [lra|].
    pose proof (constraint_surface_waves (30 * (s + 3)) 1) as Hw.
    replace (30 * (s + 3) / 30 - 3) with s in Hw by lra.
    replace ((1 * 2 - 2) ^ 2) with 0 in Hw by (simpl; lra).
    replace (s ^ 2) with (s * s) in Hw by (simpl; lra).
    assert (Hss : s <= s * s).
    { assert (0 <= s * (s - 1)) by (apply Rmult_le_pos; lra). lra. }
    assert (Hus : 0.0075 * s = 0.03 + u) by (unfold s; lra).
    lra.
Qed.

(** ** The trajectory generator: failures, empty output, the clamp *)

Lemma zip_with_map_same (f : R -> R -> R) (g h : R -> R) (t : list R) :
  Np.zip_with f (map g t) (map h t) = map (fun x => f (g x) (h x)) t.
Proof.
  unfold Np.zip_with. induction t as [| a t IH]; [reflexivity|].
  simpl. now rewrite IH.
Qed.

Lemma Forall_zip_with (P Q S : R -> Prop) (f : R -> R -> R) (a b : list R) :
  (forall x y, P x -> Q y -> S (f x y)) ->
  Forall P a -> Forall Q b -> Forall S (Np.zip_with f a b).
Proof.
  intros Hf Ha Hb. unfold Np.zip_with. apply Forall_forall. intros v Hv.
  apply in_map_iff in Hv. destruct Hv as ([x y] & <- & Hxy).
  rewrite Forall_forall in Ha, Hb. simpl.
  apply Hf; [eapply Ha, in_combine_l | eapply Hb, in_combine_r]; exact Hxy.
Qed.

(** X4.  The generator raises exactly when [np.linspace] raises, with
    the same exception and before the index is looked at, or, the time
    axis being built, when [trajectory_id - 2] or [trajectory_id] does
    not fit in a double, with [OverflowError]; the clamp, the smoothing
    filter and the surface raise nothing.  In particular a negative point
    count gives [ValueError] whatever the index is. *)
Theorem generate_raises_iff (i N : Z) (e : Py.exn) :
  (generate_trajectory_through_landscape i N = Py.Raise e <->
   Np.linspace 0 180 N = Py.Raise e \/
   ((exists t, Np.linspace 0 180 N = Py.Return t) /\
    ~ (float_convertible (i - 2) /\ float_convertible i) /\
    e = Py.OverflowError)) /\
  ((N < 0)%Z ->
   generate_trajectory_through_landscape i N = Py.Raise Py.ValueError).
Proof.
  split.
  - unfold generate_trajectory_through_landscape.
    destruct (Np.linspace 0 180 N) as [e0 | t]; cbn [Py.bind].
    + split.
      * intros H. injection H as <-. now left.
      * intros [H | ([t Ht] & _)]; [now injection H as <- | discriminate Ht].
    + destruct (Z_lt_dec (Z.abs (i - 2)) Py.float_max_int) as [H2 | H2].
      * rewrite (float_of_int_convertible _ H2). cbn [Py.bind].
        destruct (Z_lt_dec (Z.abs i) Py.float_max_int) as [H1 | H1].
        -- rewrite (float_of_int_convertible _ H1). cbn [Py.bind]. split.
           ++ discriminate.
           ++ intros [H | (_ & Hnot & _)];
                [discriminate H | exfalso; apply Hnot; now split].
        -- rewrite (float_of_int_overflow _ H1). cbn [Py.bind]. split.
           ++ intros H. injection H as <-. right.
              split; [now exists t|]. split; [| reflexivity].
              intros [_ Hc]. exact (H1 Hc).
           ++ intros [H | (_ & _ & ->)]; [discriminate H | reflexivity].
      * rewrite (float_of_int_overflow _ H2). cbn [Py.bind]. split.
        -- intros H. injection H as <-. right.
           split; [now exists t|]. split; [| reflexivity].
           intros [Hc _]. exact (H2 Hc).
        -- intros [H | (_ & _ & ->)]; [discriminate H | reflexivity].
  - intros Hneg. unfold generate_trajectory_through_landscape.
    now rewrite linspace_negative by exact Hneg.
Qed.

(** X5.  With a point count of zero the generator returns three empty
    arrays: the empty time axis passes through the oscillation, the
    clamp, the smoothing filter and the surface unchanged in length. *)
Theorem zero_points_trajectory (i : Z) :
  float_convertible (i - 2) -> float_convertible i ->
  generate_trajectory_through_landscape i 0 = Py.Return ([], [], []).
Proof.
  intros H2 H1.
  rewrite (generate_returns i 0 [] (linspace_zero 0 180) H2 H1). reflexivity.
Qed.

Lemma zero_points_trajectory_witness :
  generate_trajectory_through_landscape 3 0 = Py.Return ([], [], []).
Proof.
  apply (zero_points_trajectory 3);
    unfold float_convertible; vm_compute; reflexivity.
Defined.

Lemma PI_gt_3 : 3 < PI.
Proof. pose proof PI2_3_2. lra. Qed.

Lemma drifted_y_samples (i : Z) (t : list R) :
  drifted_y i t = map (drifted_sample i) t.
Proof. unfold drifted_y. cbv zeta. apply zip_with_map_same. Qed.

(** For the five indices of the script the oscillation with drift never
    reaches the clamp bounds on the time interval.  Indices 0 and 4 need
    the sign of the sine: its argument stays in [[0, 2.7]] for index 0 and
    in [[3.2, 5.9]] for index 4. *)
Lemma drifted_sample_within (i : Z) (tk : R) :
  valid_index i -> 0 <= tk <= 180 -> within 0.2 1.8 (drifted_sample i tk).
Proof.
  unfold valid_index. intros Hi Ht.
  pose proof PI_gt_3 as Hpi3. pose proof PI_4 as Hpi4.
  assert (Hc : i = 0%Z \/ i = 1%Z \/ i = 2%Z \/ i = 3%Z \/ i = 4%Z) by lia.
  unfold within, drifted_sample.
  destruct Hc as [-> | [-> | [-> | [-> | ->]]]].
  - replace (IZR (0 - 2)) with (-2) by (simpl; lra).
    pose proof (sin_ge_0 (0.015 * tk + 0 * 0.8) ltac:(lra) ltac:(lra)).
    pose proof (sin_bounds (0.015 * tk + 0 * 0.8)). lra.
  - replace (IZR (1 - 2)) with (-1) by (simpl; lra).
    pose proof (sin_bounds (0.015 * tk + 1 * 0.8)). lra.
  - replace (IZR (2 - 2)) with 0 by (simpl; lra).
    pose proof (sin_bounds (0.015 * tk + 2 * 0.8)). lra.
  - replace (IZR (3 - 2)) with 1 by (simpl; lra).
    pose proof (sin_bounds (0.015 * tk + 3 * 0.8)). lra.
  - replace (IZR (4 - 2)) with 2 by (simpl; lra).
    set (x := 0.015 * tk + 4 * 0.8).
    assert (Hx : 3.2 <= x <= 5.9) by (unfold x; lra).
    assert (Htk : tk = (x - 3.2) / 0.015) by (unfold x; lra).
    pose proof (sin_bounds x) as Hb.
    destruct (Rle_dec PI x) as [Hge | Hlt].
    + pose proof (sin_le_0 x Hge ltac:(lra)). lra.
    + assert (Hpos : 0 < PI - x) by lra.
      pose proof (sin_lt_x (PI - x) Hpos) as Hs.
      rewrite sin_PI_x in Hs. lra.
Qed.

Lemma map_clip_within (lo hi : R) (l : list R) :
  Forall (within lo hi) l -> map (Np.clip lo hi) l = l.
Proof.
  induction 1 as [| a l Ha Hl IH]; [reflexivity|].
  simpl. rewrite IH. f_equal.
  unfold within in Ha. unfold Np.clip, Rmin, Rmax.
  destruct (Rle_dec a lo); destruct (Rle_dec _ hi); lra.
Qed.

(** X6.  For the indices 0 to 4 that [create_figure] passes, [np.clip]
    changes no sample: on the time axis [np.linspace(0, 180, N)] the
    oscillation with drift already lies in [[0.2, 1.8]], so the returned
    axis-2 array is the smoothing filter applied to the unclamped
    values.  (Real arithmetic, as everywhere.) *)
Theorem clamp_is_inactive (i N : Z) (t : list R) :
  valid_index i -> Np.linspace 0 180 N = Py.Return t ->
  clamped_y i t = drifted_y i t /\
  generate_trajectory_through_landscape i N =
    Py.Return (t, Ndimage.uniform_filter1d (drifted_y i t) 10,
               elevation t (Ndimage.uniform_filter1d (drifted_y i t) 10)).
Proof.
  intros Hi Ht.
  assert (Hc : clamped_y i t = drifted_y i t).
  { unfold clamped_y. apply map_clip_within.
    rewrite drifted_y_samples. apply Forall_forall. intros v Hv.
    apply in_map_iff in Hv. destruct Hv as (tk & <- & Htk).
    apply drifted_sample_within; [exact Hi|].
    pose proof (linspace_within 0 180 N t ltac:(lra) Ht) as Hw.
    rewrite Forall_forall in Hw. exact (Hw tk Htk). }
  split; [exact Hc|].
  destruct (valid_index_convertible i Hi) as [Hci Hc2].
  rewrite (generate_returns i N t Ht Hc2 Hci).
  unfold smoothed_y. now rewrite Hc.
Qed.

Lemma clamp_is_inactive_witness :
  clamped_y 4 [0; 90; 180] = drifted_y 4 [0; 90; 180] /\
  generate_trajectory_through_landscape 4 3 =
    Py.Return ([0; 90; 180],
               Ndimage.uniform_filter1d (drifted_y 4 [0; 90; 180]) 10,
               elevation [0; 90; 180]
                 (Ndimage.uniform_filter1d (drifted_y 4 [0; 90; 180]) 10)).
Proof.
  apply (clamp_is_inactive 4 3 [0; 90; 180]).
  - unfold valid_index. lia.
  - exact linspace_three.
Defined.

(** X7.  Every point of a returned trajectory lies inside the axes box
    that [create_figure] sets with [set_xlim(0, 180)], [set_ylim(0, 2)]
    and [set_zlim(-1.5, 1.5)], for every index that converts to a double
    and every point count, the indices outside 0 to 4 included. *)
Theorem trajectory_inside_axes (i N : Z) :
  float_convertible (i - 2) -> float_convertible i -> (0 <= N)%Z ->
  exists tr,
    generate_trajectory_through_landscape i N = Py.Return tr /\
    Forall (within 0 180) (traj_t tr) /\
    Forall (within 0 2) (traj_y tr) /\
    Forall (within (-1.5) 1.5) (traj_z tr).
Proof.
  intros H2 H1 HN.
  destruct (linspace_returns 0 180 N HN) as [t Ht].
  exists (t, smoothed_y i t, elevation t (smoothed_y i t)).
  pose proof (linspace_within 0 180 N t ltac:(lra) Ht) as Hw.
  pose proof (smoothed_y_within i t) as Hy.
  split; [now apply generate_returns|].
  unfold traj_t, traj_y, traj_z. cbn [fst snd].
  split; [exact Hw|]. split.
  - eapply Forall_impl; [| exact Hy]. unfold within. intros v Hv. lra.
  - unfold elevation.
    apply (Forall_zip_with (within 0 180) (within 0.2 1.8));
      [| exact Hw | exact Hy].
    intros tk yk Htk Hyk. unfold within in *.
    pose proof (constraint_surface_range tk yk Htk ltac:(lra)) as Hs.
    unfold within in Hs. lra.
Qed.

Lemma trajectory_inside_axes_witness :
  exists tr,
    generate_trajectory_through_landscape 4 200 = Py.Return tr /\
    Forall (within 0 180) (traj_t tr) /\
    Forall (within 0 2) (traj_y tr) /\
    Forall (within (-1.5) 1.5) (traj_z tr).
Proof.
  apply (trajectory_inside_axes 4 200);
    [unfold float_convertible; vm_compute; reflexivity
    |unfold float_convertible; vm_compute; reflexivity
    |lia].
Defined.

(** ** [uniform_filter1d]: windows and boundaries *)

Lemma firstn_seq_local (n start len : nat) :
  (n <= len)%nat -> firstn n (seq start len) = seq start n.
Proof.
  revert start len. induction n as [| n IH]; intros start len H; [reflexivity|].
  destruct len as [| len]; [lia|].
  simpl. f_equal. apply IH. lia.
Qed.

Lemma map_seq_from (f : nat -> R) (start len : nat) :
  map f (seq start len) = map (fun j => f (start + j)%nat) (seq 0 len).
Proof.
  revert start. induction len as [| len IH]; intros start; [reflexivity|].
  simpl. rewrite Nat.add_0_r. f_equal.
  rewrite IH. rewrite <- seq_shift, map_map.
  apply map_ext. intros j. f_equal. lia.
Qed.

Lemma extend_line_window (input : list R) (size k : nat) :
  (1 <= size)%nat -> (k < length input)%nat ->
  firstn size
    (skipn k (Ndimage.extend_line input (size / 2) (size - size / 2 - 1))) =
  window input size k.
Proof.
  intros Hs Hk. unfold Ndimage.extend_line, window.
  pose proof (Nat.div_lt size 2 ltac:(lia) ltac:(lia)) as Hhalf.
  rewrite skipn_map, firstn_map, skipn_seq, firstn_seq_local by lia.
  rewrite map_seq_from. apply map_ext. intros j.
  f_equal. lia.
Qed.

Lemma nth_uniform_filter1d (input : list R) (size k : nat) :
  (1 <= size)%nat -> (k < length input)%nat ->
  nth k (Ndimage.uniform_filter1d input size) 0 =
  fold_left Rplus (window input size k) 0 / INR size.
Proof.
  intros Hs Hk.
  assert (Hne : input <> []) by (intros ->; simpl in Hk; lia).
  rewrite uniform_filter1d_means by assumption.
  set (F := fun k0 : nat =>
              window_sum size
                (skipn k0 (Ndimage.extend_line input (size / 2)
                             (size - size / 2 - 1))) / INR size).
  rewrite (nth_indep _ 0 (F 0%nat)) by (now rewrite length_map, length_seq).
  rewrite map_nth, seq_nth by exact Hk.
  unfold F, window_sum. cbn [Nat.add].
  now rewrite extend_line_window.
Qed.

Lemma reflect_index_inside (n k : nat) :
  (k < n)%nat -> Ndimage.reflect_index n (Z.of_nat k) = k.
Proof.
  intros Hk. unfold Ndimage.reflect_index. cbv zeta.
  rewrite Z.mod_small by lia.
  replace (Z.of_nat k <? Z.of_nat n)%Z with true
    by (symmetry; apply Z.ltb_lt; lia).
  apply Nat2Z.id.
Qed.

Lemma reflect_index_mirror (n : nat) (k : Z) :
  (0 < n)%nat ->
  Ndimage.reflect_index n (- 1 - k) = Ndimage.reflect_index n k.
Proof.
  intros Hn. unfold Ndimage.reflect_index. cbv zeta.
  set (N := Z.of_nat n).
  assert (HN : (0 < N)%Z) by (unfold N; lia).
  pose proof (Z.mod_pos_bound k (2 * N) ltac:(lia)) as Hm.
  pose proof (Z.div_mod k (2 * N) ltac:(lia)) as Hdm.
  set (m := (k mod (2 * N))%Z) in *.
  set (q := (k / (2 * N))%Z) in *.
  assert (Hmir : ((- 1 - k) mod (2 * N) = 2 * N - 1 - m)%Z).
  { symmetry. apply (Z.mod_unique_pos _ _ (- q - 1)); lia. }
  rewrite Hmir.
  destruct (Z.ltb_spec m N) as [Hlt | Hge].
  - replace (2 * N - 1 - m <? N)%Z with false
      by (symmetry; apply Z.ltb_ge; lia).
    f_equal. lia.
  - replace (2 * N - 1 - m <? N)%Z with true
      by (symmetry; apply Z.ltb_lt; lia).
    reflexivity.
Qed.

Lemma reflect_index_period (n : nat) (k : Z) :
  Ndimage.reflect_index n (k + 2 * Z.of_nat n) = Ndimage.reflect_index n k.
Proof.
  unfold Ndimage.reflect_index. cbv zeta.
  destruct n as [| n].
  - now rewrite Z.add_0_r.
  - replace (k + 2 * Z.of_nat (S n))%Z with (k + 1 * (2 * Z.of_nat (S n)))%Z
      by lia.
    rewrite Z.mod_add by lia. reflexivity.
Qed.

(** X8.  The boundary mode [reflect] of the smoothing filter: the
    extended line is the mirror image of itself about the edge in front
    of the first sample (position [-1 - k] reads what position [k]
    reads), it repeats with period twice the length of the line, and
    inside the line it is the line itself. *)
Theorem reflect_boundary (line : list R) (k : Z) :
  (0 < length line)%nat ->
  Ndimage.extended line (- 1 - k) = Ndimage.extended line k /\
  Ndimage.extended line (k + 2 * Z.of_nat (length line)) =
    Ndimage.extended line k /\
  (forall j, (j < length line)%nat ->
     Ndimage.extended line (Z.of_nat j) = nth j line 0).
Proof.
  intros Hn. unfold Ndimage.extended.
  split; [| split].
  - now rewrite reflect_index_mirror.
  - now rewrite reflect_index_period.
  - intros j Hj. now rewrite reflect_index_inside.
Qed.

Lemma reflect_boundary_witness :
  Ndimage.extended [1; 2; 3] (- 1 - 4) = Ndimage.extended [1; 2; 3] 4 /\
  Ndimage.extended [1; 2; 3] (4 + 2 * Z.of_nat (length [1; 2; 3])) =
    Ndimage.extended [1; 2; 3] 4 /\
  (forall j, (j < length [1; 2; 3])%nat ->
     Ndimage.extended [1; 2; 3] (Z.of_nat j) = nth j [1; 2; 3] 0).
Proof. apply (reflect_boundary [1; 2; 3] 4). simpl. lia. Defined.

(** X9.  The running sum of the smoothing filter computes window means:
    output [k] is the mean of the [size] samples of the reflected line
    from position [k - size / 2] on, and when that window lies inside the
    line these are [size] consecutive samples of the input. *)
Theorem uniform_filter1d_window_mean (input : list R) (size k : nat) :
  (1 <= size)%nat -> (k < length input)%nat ->
  length (window input size k) = size /\
  nth k (Ndimage.uniform_filter1d input size) 0 =
    fold_left Rplus (window input size k) 0 / INR size /\
  ((size / 2 <= k)%nat -> (k + (size - size / 2 - 1) < length input)%nat ->
   window input size k = firstn size (skipn (k - size / 2) input)).
Proof.
  intros Hs Hk. split; [| split].
  - unfold window. now rewrite length_map, length_seq.
  - now apply nth_uniform_filter1d.
  - intros Hlo Hhi.
    pose proof (Nat.div_lt size 2 ltac:(lia) ltac:(lia)) as Hhalf.
    unfold window.
    set (F := fun j : nat =>
                Ndimage.extended input
                  (Z.of_nat k + Z.of_nat j - Z.of_nat (size / 2))).
    apply nth_ext with (d := 0) (d' := 0).
    + rewrite length_map, length_seq, length_firstn, length_skipn. lia.
    + intros j Hj. rewrite length_map, length_seq in Hj.
      rewrite (nth_indep _ 0 (F 0%nat)) by (now rewrite length_map, length_seq).
      rewrite map_nth, seq_nth by exact Hj.
      unfold F, Ndimage.extended. cbn [Nat.add].
      replace (Z.of_nat k + Z.of_nat j - Z.of_nat (size / 2))%Z
        with (Z.of_nat (k - size / 2 + j)) by lia.
      rewrite reflect_index_inside by lia.
      rewrite nth_firstn.
      replace (j <? size)%nat with true by (symmetry; apply Nat.ltb_lt; exact Hj).
      rewrite nth_skipn. reflexivity.
Qed.

Lemma uniform_filter1d_window_mean_witness :
  length (window [2; 8; 0; 4; 1; 9; 9; 0] 3 2) = 3%nat /\
  nth 2 (Ndimage.uniform_filter1d [2; 8; 0; 4; 1; 9; 9; 0] 3) 0 =
    fold_left Rplus (window [2; 8; 0; 4; 1; 9; 9; 0] 3 2) 0 / INR 3 /\
  ((3 / 2 <= 2)%nat ->
   (2 + (3 - 3 / 2 - 1) < length [2; 8; 0; 4; 1; 9; 9; 0])%nat ->
   window [2; 8; 0; 4; 1; 9; 9; 0] 3 2 =
   firstn 3 (skipn (2 - 3 / 2) [2; 8; 0; 4; 1; 9; 9; 0])).
Proof.
  apply (uniform_filter1d_window_mean [2; 8; 0; 4; 1; 9; 9; 0] 3 2);
    simpl; lia.
Defined.

Lemma extended_repeat (c : R) (n : nat) (k : Z) :
  (0 < n)%nat -> Ndimage.extended (repeat c n) k = c.
Proof.
  intros Hn. unfold Ndimage.extended. rewrite repeat_length.
  pose proof (reflect_index_lt n k Hn) as Hlt.
  apply (repeat_spec n c). apply nth_In. now rewrite repeat_length.
Qed.

Lemma map_constant (c : R) (l : list nat) (f : nat -> R) :
  (forall j, f j = c) -> map f l = repeat c (length l).
Proof.
  intros Hf. induction l as [| a l IH]; [reflexivity|].
  simpl. now rewrite Hf, IH.
Qed.

Lemma window_repeat (c : R) (n size k : nat) :
  (0 < n)%nat -> window (repeat c n) size k = repeat c size.
Proof.
  intros Hn. unfold window.
  rewrite (map_constant c) by (intros j; now apply extended_repeat).
  now rewrite length_seq.
Qed.

(** X10.  The smoothing filter maps a constant line to a constant line
    of the same length, for every window size and every length, the
    lines shorter than the window included: every window holds [size]
    copies of the constant [c], and every output is their mean, the sum
    of the copies from zero divided by [size].  (In exact arithmetic
    that mean is [c]; in float64 it can differ from [c] in the last
    digit, which is why the value is stated as the mean.) *)
Theorem uniform_filter1d_constant (c : R) (n size : nat) :
  (1 <= size)%nat ->
  (forall k, (k < n)%nat -> window (repeat c n) size k = repeat c size) /\
  Ndimage.uniform_filter1d (repeat c n) size =
    repeat (fold_left Rplus (repeat c size) 0 / INR size) n.
Proof.
  intros Hs. split.
  - intros k Hk. apply window_repeat. lia.
  - set (m := fold_left Rplus (repeat c size) 0 / INR size).
    apply nth_ext with (d := 0) (d' := 0).
    + now rewrite uniform_filter1d_length, !repeat_length.
    + intros k Hk.
      rewrite uniform_filter1d_length, repeat_length in Hk by exact Hs.
      rewrite nth_uniform_filter1d by (rewrite ?repeat_length; assumption).
      rewrite window_repeat by lia.
      symmetry. apply (repeat_spec n m). apply nth_In.
      now rewrite repeat_length.
Qed.

Lemma uniform_filter1d_constant_witness :
  (forall k, (k < 200)%nat ->
     window (repeat 1.4 200) 10 k = repeat 1.4 10) /\
  Ndimage.uniform_filter1d (repeat 1.4 200) 10 =
    repeat (fold_left Rplus (repeat 1.4 10) 0 / INR 10) 200.
Proof. apply (uniform_filter1d_constant 1.4 200 10). lia. Defined.

Lemma extended_inside (line : list R) (k : nat) :
  (k < length line)%nat ->
  Ndimage.extended line (Z.of_nat k) = nth k line 0.
Proof.
  intros Hk. unfold Ndimage.extended. now rewrite reflect_index_inside.
Qed.

Lemma extended_before (line : list R) (k : nat) :
  (k < length line)%nat ->
  Ndimage.extended line (- 1 - Z.of_nat k) = nth k line 0.
Proof.
  intros Hk. unfold Ndimage.extended.
  rewrite reflect_index_mirror by lia. now rewrite reflect_index_inside.
Qed.

Lemma extended_after (line : list R) (k : nat) :
  (k < length line)%nat ->
  Ndimage.extended line (Z.of_nat (length line) + Z.of_nat k) =
  nth (length line - 1 - k) line 0.
Proof.
  intros Hk. unfold Ndimage.extended.
  replace (Z.of_nat (length line) + Z.of_nat k)%Z
    with ((- 1 - Z.of_nat (length line - 1 - k))
          + 2 * Z.of_nat (length line))%Z by lia.
  rewrite reflect_index_period, reflect_index_mirror by lia.
  rewrite reflect_index_inside by lia. reflexivity.
Qed.

(** X11.  The two ends of a line smoothed with the window of ten that the
    generator uses.  The window reaches five samples back and four
    ahead, so on a line of six samples or more the first output is the
    mean of the first five samples, each counted twice by the
    reflection, and the last output weighs the last four samples twice
    and the two before them once. *)
Theorem smoothed_ends (input : list R) :
  (6 <= length input)%nat ->
  nth 0 (Ndimage.uniform_filter1d input 10) 0 =
    (nth 0 input 0 + nth 1 input 0 + nth 2 input 0 + nth 3 input 0
     + nth 4 input 0) / 5 /\
  nth (length input - 1) (Ndimage.uniform_filter1d input 10) 0 =
    (nth (length input - 6) input 0 + nth (length input - 5) input 0
     + 2 * (nth (length input - 4) input 0 + nth (length input - 3) input 0
            + nth (length input - 2) input 0
            + nth (length input - 1) input 0)) / 10.
Proof.
  intros Hlen. set (n := length input) in *.
  assert (H10 : INR 10 = 10) by (simpl; lra).
  split; rewrite nth_uniform_filter1d by (fold n; lia); unfold window;
    change (10 / 2)%nat with 5%nat; cbn [seq map].
  - replace (Z.of_nat 0 + Z.of_nat 0 - Z.of_nat 5)%Z
      with (- 1 - Z.of_nat 4)%Z by lia.
    replace (Z.of_nat 0 + Z.of_nat 1 - Z.of_nat 5)%Z
      with (- 1 - Z.of_nat 3)%Z by lia.
    replace (Z.of_nat 0 + Z.of_nat 2 - Z.of_nat 5)%Z
      with (- 1 - Z.of_nat 2)%Z by lia.
    replace (Z.of_nat 0 + Z.of_nat 3 - Z.of_nat 5)%Z
      with (- 1 - Z.of_nat 1)%Z by lia.
    replace (Z.of_nat 0 + Z.of_nat 4 - Z.of_nat 5)%Z
      with (- 1 - Z.of_nat 0)%Z by lia.
    replace (Z.of_nat 0 + Z.of_nat 5 - Z.of_nat 5)%Z with (Z.of_nat 0) by lia.
    replace (Z.of_nat 0 + Z.of_nat 6 - Z.of_nat 5)%Z with (Z.of_nat 1) by lia.
    replace (Z.of_nat 0 + Z.of_nat 7 - Z.of_nat 5)%Z with (Z.of_nat 2) by lia.
    replace (Z.of_nat 0 + Z.of_nat 8 - Z.of_nat 5)%Z with (Z.of_nat 3) by lia.
    replace (Z.of_nat 0 + Z.of_nat 9 - Z.of_nat 5)%Z with (Z.of_nat 4) by lia.
    rewrite !extended_before, !extended_inside by (fold n; lia).
    cbn [fold_left]. rewrite H10. lra.
  - replace (Z.of_nat (n - 1) + Z.of_nat 0 - Z.of_nat 5)%Z
      with (Z.of_nat (n - 6)) by lia.
    replace (Z.of_nat (n - 1) + Z.of_nat 1 - Z.of_nat 5)%Z
      with (Z.of_nat (n - 5)) by lia.
    replace (Z.of_nat (n - 1) + Z.of_nat 2 - Z.of_nat 5)%Z
      with (Z.of_nat (n - 4)) by lia.
    replace (Z.of_nat (n - 1) + Z.of_nat 3 - Z.of_nat 5)%Z
      with (Z.of_nat (n - 3)) by lia.
    replace (Z.of_nat (n - 1) + Z.of_nat 4 - Z.of_nat 5)%Z
      with (Z.of_nat (n - 2)) by lia.
    replace (Z.of_nat (n - 1) + Z.of_nat 5 - Z.of_nat 5)%Z
      with (Z.of_nat (n - 1)) by lia.
    replace (Z.of_nat (n - 1) + Z.of_nat 6 - Z.of_nat 5)%Z
      with (Z.of_nat n + Z.of_nat 0)%Z by lia.
    replace (Z.of_nat (n - 1) + Z.of_nat 7 - Z.of_nat 5)%Z
      with (Z.of_nat n + Z.of_nat 1)%Z by lia.
    replace (Z.of_nat (n - 1) + Z.of_nat 8 - Z.of_nat 5)%Z
      with (Z.of_nat n + Z.of_nat 2)%Z by lia.
    replace (Z.of_nat (n - 1) + Z.of_nat 9 - Z.of_nat 5)%Z
      with (Z.of_nat n + Z.of_nat 3)%Z by lia.
    unfold n. rewrite !extended_after, !extended_inside by lia. fold n.
    replace (n - 1 - 0)%nat with (n - 1)%nat by lia.
    replace (n - 1 - 1)%nat with (n - 2)%nat by lia.
    replace (n - 1 - 2)%nat with (n - 3)%nat by lia.
    replace (n - 1 - 3)%nat with (n - 4)%nat by lia.
    cbn [fold_left]. rewrite H10. lra.
Qed.

Lemma smoothed_ends_witness :
  nth 0 (Ndimage.uniform_filter1d [2; 8; 0; 4; 1; 9; 9; 0] 10) 0 =
    (nth 0 [2; 8; 0; 4; 1; 9; 9; 0] 0 + nth 1 [2; 8; 0; 4; 1; 9; 9; 0] 0
     + nth 2 [2; 8; 0; 4; 1; 9; 9; 0] 0 + nth 3 [2; 8; 0; 4; 1; 9; 9; 0] 0
     + nth 4 [2; 8; 0; 4; 1; 9; 9; 0] 0) / 5 /\
  nth (length [2; 8; 0; 4; 1; 9; 9; 0] - 1)
      (Ndimage.uniform_filter1d [2; 8; 0; 4; 1; 9; 9; 0] 10) 0 =
    (nth (length [2; 8; 0; 4; 1; 9; 9; 0] - 6) [2; 8; 0; 4; 1; 9; 9; 0] 0
     + nth (length [2; 8; 0; 4; 1; 9; 9; 0] - 5) [2; 8; 0; 4; 1; 9; 9; 0] 0
     + 2 * (nth (length [2; 8; 0; 4; 1; 9; 9; 0] - 4)
                [2; 8; 0; 4; 1; 9; 9; 0] 0
            + nth (length [2; 8; 0; 4; 1; 9; 9; 0] - 3)
                [2; 8; 0; 4; 1; 9; 9; 0] 0
            + nth (length [2; 8; 0; 4; 1; 9; 9; 0] - 2)
                [2; 8; 0; 4; 1; 9; 9; 0] 0
            + nth (length [2; 8; 0; 4; 1; 9; 9; 0] - 1)
                [2; 8; 0; 4; 1; 9; 9; 0] 0)) / 10.
Proof. apply (smoothed_ends [2; 8; 0; 4; 1; 9; 9; 0]). simpl. lia. Defined.

(** ** Topology variant: what [create_figure] computes *)

Lemma combine_map_same {A B C : Type} (f : A -> B) (g : A -> C) (l : list A) :
  combine (map f l) (map g l) = map (fun v => (f v, g v)) l.
Proof. induction l as [| a l IH]; [reflexivity|]. simpl. now rewrite IH. Qed.

Lemma zip_with2_meshgrid (f : R -> R -> R) (x y : list R) :
  Grid.zip_with2 f (fst (Grid.meshgrid x y)) (snd (Grid.meshgrid x y)) =
  map (fun yv => map (fun xv => f xv yv) x) y.
Proof.
  unfold Grid.zip_with2, Grid.meshgrid. cbn [fst snd].
  rewrite combine_map_same, map_map. apply map_ext. intros yv. cbn [fst snd].
  rewrite <- (map_id x) at 1. apply zip_with_map_same.
Qed.

(** X12.  The surface mesh of [create_figure]: for resolutions that are
    not negative (the script uses 120 and 80) the mesh has one row per
    sample of the second axis and one column per sample of the time
    axis, entry (r, c) is the surface at time sample c and axis-2 sample
    r, and every entry lies within the z-limits [[-1.5, 1.5]] of the
    figure. *)
Theorem surface_mesh_within_zlim (resolution_t resolution_y : Z) :
  (0 <= resolution_t)%Z -> (0 <= resolution_y)%Z ->
  exists t_range y_range Z_mesh,
    Np.linspace 0 180 resolution_t = Py.Return t_range /\
    Np.linspace 0 2 resolution_y = Py.Return y_range /\
    surface_mesh resolution_t resolution_y = Py.Return Z_mesh /\
    Z_mesh =
      map (fun yv => map (fun tv => constraint_surface tv yv) t_range) y_range /\
    length Z_mesh = Z.to_nat resolution_y /\
    Forall (fun row => length row = Z.to_nat resolution_t /\
                       Forall (within (-1.5) 1.5) row) Z_mesh.
Proof.
  intros Ht Hy.
  destruct (linspace_returns 0 180 resolution_t Ht) as [t_range Et].
  destruct (linspace_returns 0 2 resolution_y Hy) as [y_range Ey].
  exists t_range, y_range.
  exists (map (fun yv => map (fun tv => constraint_surface tv yv) t_range)
            y_range).
  pose proof (linspace_within 0 180 _ _ ltac:(lra) Et) as Wt.
  pose proof (linspace_within 0 2 _ _ ltac:(lra) Ey) as Wy.
  split; [exact Et|]. split; [exact Ey|]. split; [| split; [| split]].
  - unfold surface_mesh. rewrite Et, Ey. cbn [Py.bind].
    rewrite <- zip_with2_meshgrid.
    destruct (Grid.meshgrid t_range y_range). reflexivity.
  - reflexivity.
  - rewrite length_map. apply (linspace_length _ _ _ _ Ey).
  - apply Forall_forall. intros row Hrow.
    apply in_map_iff in Hrow. destruct Hrow as (yv & <- & Hyv).
    split.
    + rewrite length_map. apply (linspace_length _ _ _ _ Et).
    + apply Forall_forall. intros v Hv.
      apply in_map_iff in Hv. destruct Hv as (tv & <- & Htv).
      rewrite Forall_forall in Wt, Wy.
      pose proof (constraint_surface_range tv yv (Wt tv Htv) (Wy yv Hyv)) as Hs.
      unfold within in *. lra.
Qed.

Lemma surface_mesh_within_zlim_witness :
  exists t_range y_range Z_mesh,
    Np.linspace 0 180 120 = Py.Return t_range /\
    Np.linspace 0 2 80 = Py.Return y_range /\
    surface_mesh 120 80 = Py.Return Z_mesh /\
    Z_mesh =
      map (fun yv => map (fun tv => constraint_surface tv yv) t_range) y_range /\
    length Z_mesh = Z.to_nat 80 /\
    Forall (fun row => length row = Z.to_nat 120 /\
                       Forall (within (-1.5) 1.5) row) Z_mesh.
Proof. apply (surface_mesh_within_zlim 120 80); lia. Defined.

Lemma range_spec (stop i : Z) :
  In i (PySeq.range stop) <-> (0 <= i < stop)%Z.
Proof.
  unfold PySeq.range. rewrite in_map_iff. split.
  - intros (k & <- & Hk). apply in_seq in Hk. lia.
  - intros H. exists (Z.to_nat i). split; [lia|]. apply in_seq. lia.
Qed.

Lemma getitem_in_range {A : Type} (l : list A) (i : Z) :
  PySeq.getitem l i <> None <->
  (- Z.of_nat (length l) <= i < Z.of_nat (length l))%Z.
Proof.
  unfold PySeq.getitem. cbv zeta.
  destruct (Z.ltb_spec i 0) as [Hneg | Hnn].
  - destruct (Z.ltb_spec (i + Z.of_nat (length l)) 0) as [Hlow | Hok].
    + split; [congruence | lia].
    + rewrite nth_error_Some. lia.
  - rewrite nth_error_Some. lia.
Qed.

(** X13.  The trajectory loop of [create_figure]: [range(5)] yields
    exactly the indices 0 to 4, the colour lookup [TRAJECTORY_COLORS[i]]
    succeeds exactly for [-5 <= i <= 4] and so for each of them, and
    each of the five calls of the generator returns a trajectory of 200
    points per axis whose start marker is at time 0 and whose end marker
    is at time 180. *)
Theorem figure_trajectories_plotted :
  (forall i, In i (PySeq.range 5) <-> valid_index i) /\
  (forall i, PySeq.getitem Wireframe.TRAJECTORY_COLORS i <> None <->
             (-5 <= i <= 4)%Z) /\
  length Wireframe.figure_trajectories = 5%nat /\
  Forall (fun line =>
            snd line <> None /\
            exists tr,
              fst line = Py.Return tr /\
              length (traj_t tr) = 200%nat /\
              length (traj_y tr) = 200%nat /\
              length (traj_z tr) = 200%nat /\
              nth 0 (traj_t tr) 0 = 0 /\
              last (traj_t tr) 0 = 180)
         Wireframe.figure_trajectories.
Proof.
  split; [| split; [| split]].
  - intros i. rewrite range_spec. unfold valid_index. lia.
  - intros i. rewrite getitem_in_range.
    change (length Wireframe.TRAJECTORY_COLORS) with 5%nat. lia.
  - reflexivity.
  - unfold Wireframe.figure_trajectories. apply Forall_forall.
    intros line Hline. apply in_map_iff in Hline.
    destruct Hline as (i & <- & Hi). apply range_spec in Hi. cbn [fst snd].
    split.
    + apply getitem_in_range.
      change (length Wireframe.TRAJECTORY_COLORS) with 5%nat. lia.
    + destruct (time_axis_many 200 ltac:(lia)) as (t & Et & Hlen & _ & H0 & Hl).
      destruct (valid_index_convertible i ltac:(unfold valid_index; lia))
        as [Hci Hc2].
      exists (t, smoothed_y i t, elevation t (smoothed_y i t)).
      split; [now apply generate_returns|].
      unfold traj_t, traj_y, traj_z. cbn [fst snd].
      change (Z.to_nat 200) with 200%nat in Hlen.
      rewrite elevation_length, smoothed_y_length
        by (now rewrite smoothed_y_length).
      repeat split; assumption.
Qed.

(** ** Feltness variant: entities, bumps and the z-limits *)

Lemma dict_getitem_in (d : list (String.string * String.string))
    (key : String.string) :
  In key (map fst d) -> FeltnessSpace.dict_getitem d key <> None.
Proof.
  unfold FeltnessSpace.dict_getitem. intros Hin.
  apply in_map_iff in Hin. destruct Hin as (item & Hk & Hitem).
  destruct (find _ d) as [it |] eqn:Hf; [discriminate|].
  exfalso. apply (find_none _ _ Hf) in Hitem.
  rewrite Hk, String.eqb_refl in Hitem. discriminate.
Qed.

(** X14.  The entity loop of [create_figure] never fails on a colour
    lookup: the keys of [ENTITY_COLORS] are pairwise distinct, the colour
    keys used by [ENTITIES] are exactly those keys, and every entity is
    scattered at a point of the plotted square [[0, 1] x [0, 1]], at the
    height of the surface there plus the offset 0.05. *)
Theorem entity_points_plotted :
  NoDup (map fst FeltnessSpace.ENTITY_COLORS) /\
  (forall key,
     In key (map FeltnessSpace.color_key FeltnessSpace.ENTITIES) <->
     In key (map fst FeltnessSpace.ENTITY_COLORS)) /\
  Forall (fun ent =>
            exists embodiment persistence z color,
              FeltnessSpace.entity_point ent =
                Some (embodiment, persistence, z, color) /\
              within 0 1 embodiment /\ within 0 1 persistence /\
              z = feltness_surface embodiment persistence + 0.05)
         FeltnessSpace.ENTITIES.
Proof.
  assert (Hkeys : forall key,
            In key (map FeltnessSpace.color_key FeltnessSpace.ENTITIES) <->
            In key (map fst FeltnessSpace.ENTITY_COLORS)).
  { intros key.
    unfold FeltnessSpace.ENTITIES, FeltnessSpace.ENTITY_COLORS,
      FeltnessSpace.color_key.
    cbn [map fst snd In]. tauto. }
  split; [| split].
  - unfold FeltnessSpace.ENTITY_COLORS. cbn [map fst].
    repeat (constructor;
            [intros H; cbn [In] in H;
             repeat (destruct H as [H | H]; [discriminate H|]); exact H|]).
    constructor.
  - exact Hkeys.
  - apply Forall_forall. intros ent Hent.
    assert (Hkey : FeltnessSpace.dict_getitem FeltnessSpace.ENTITY_COLORS
                     (FeltnessSpace.color_key ent) <> None).
    { apply dict_getitem_in, Hkeys. now apply in_map. }
    assert (Hdom : within 0 1 (fst (fst (fst ent))) /\
                   within 0 1 (snd (fst (fst ent)))).
    { unfold FeltnessSpace.ENTITIES in Hent. cbn [In] in Hent.
      repeat (destruct Hent as [<- | Hent];
              [cbn [fst snd]; unfold within; lra|]).
      contradiction. }
    destruct ent as [[[e p] name] key]. cbn [fst snd] in Hdom.
    unfold FeltnessSpace.color_key in Hkey. cbn [snd] in Hkey.
    unfold FeltnessSpace.entity_point.
    destruct (FeltnessSpace.dict_getitem FeltnessSpace.ENTITY_COLORS key)
      as [color |]; [| contradiction].
    exists e, p, (feltness_surface e p + 0.05), color.
    cbv zeta. repeat split; apply Hdom.
Qed.

(** X15.  Each of the five bumps and dips of [feltness_surface] reaches
    its extreme value, its amplitude, at its centre and at no other
    point: the uncanny dip is -0.3 exactly at (0.6, 0.2), where
    [create_figure] puts the valley marker, the Ava peak is 0.2 exactly
    at (0.85, 0.5), the pet peak 0.15 exactly at (0.6, 0.8), the human
    peak 0.3 exactly at (0.95, 0.95) and the tool valley -0.1 exactly at
    (0.1, 0.1). *)
Theorem bumps_extreme_at_centres (e p : R) :
  (-0.3 <= Feltness.uncanny_dip e p /\
   (Feltness.uncanny_dip e p = -0.3 <-> e = 0.6 /\ p = 0.2)) /\
  (Feltness.ava_peak e p <= 0.2 /\
   (Feltness.ava_peak e p = 0.2 <-> e = 0.85 /\ p = 0.5)) /\
  (Feltness.pet_peak e p <= 0.15 /\
   (Feltness.pet_peak e p = 0.15 <-> e = 0.6 /\ p = 0.8)) /\
  (Feltness.human_peak e p <= 0.3 /\
   (Feltness.human_peak e p = 0.3 <-> e = 0.95 /\ p = 0.95)) /\
  (-0.1 <= Feltness.tool_valley e p /\
   (Feltness.tool_valley e p = -0.1 <-> e = 0.1 /\ p = 0.1)).
Proof.
  split; [| split; [| split; [| split]]]; split.
  - exact (proj1 (uncanny_dip_range e p)).
  - apply (gaussian_extreme_iff (-0.3) 0.6 0.05 0.2 0.08 e p); lra.
  - exact (proj2 (ava_peak_range e p)).
  - apply (gaussian_extreme_iff 0.2 0.85 0.03 0.5 0.05 e p); lra.
  - exact (proj2 (pet_peak_range e p)).
  - apply (gaussian_extreme_iff 0.15 0.6 0.04 0.8 0.04 e p); lra.
  - exact (proj2 (human_peak_range e p)).
  - apply (gaussian_extreme_iff 0.3 0.95 0.02 0.95 0.02 e p); lra.
  - exact (proj1 (tool_valley_range e p)).
  - apply (gaussian_extreme_iff (-0.1) 0.1 0.05 0.1 0.05 e p); lra.
Qed.

(** X16.  At every point [feltness_surface] stays close to its trend
    [0.3 * e + 0.3 * p + 0.5 * e * p], the base plus the synergy: the
    bumps, dips and ripples together lower it by less than 0.48 and
    raise it by less than 0.73. *)
Theorem feltness_near_trend (e p : R) :
  -0.48 < feltness_surface e p - (0.3 * e + 0.3 * p + 0.5 * e * p) < 0.73.
Proof.
  unfold feltness_surface. cbv zeta.
  unfold Feltness.base, Feltness.synergy.
  pose proof (uncanny_dip_range e p). pose proof (ava_peak_range e p).
  pose proof (pet_peak_range e p). pose proof (human_peak_range e p).
  pose proof (tool_valley_range e p). pose proof (ripples_range e p).
  split; lra.
Qed.

(** The surface at the entity Human Friend. *)
Lemma feltness_at_human_friend : 1.2 < feltness_surface 0.95 0.95.
Proof.
  unfold feltness_surface. cbv zeta.
  rewrite human_peak_at_center.
  pose proof (ava_peak_range 0.95 0.95) as Ha.
  pose proof (pet_peak_range 0.95 0.95) as Hp.
  pose proof (ripples_range 0.95 0.95) as Hr.
  unfold Feltness.base, Feltness.synergy, Feltness.uncanny_dip,
    Feltness.tool_valley.
  set (xd := (0.95 - 0.6) ^ 2 / 0.05 + (0.95 - 0.2) ^ 2 / 0.08).
  set (xt := (0.95 - 0.1) ^ 2 / 0.05 + (0.95 - 0.1) ^ 2 / 0.05).
  assert (Hxd : 9 <= xd) by (unfold xd; cbn [pow]; lra).
  assert (Hxt : 9 <= xt) by (unfold xt; cbn [pow]; lra).
  pose proof (exp_neg_le_inv xd ltac:(lra)) as Hd.
  pose proof (exp_neg_le_inv xt ltac:(lra)) as Ht.
  assert (Hid : / (1 + xd) <= / 10) by (apply Rinv_le_contravar; lra).
  assert (Hit : / (1 + xt) <= / 10) by (apply Rinv_le_contravar; lra).
  lra.
Qed.

(** X17.  The z-limits of the feltness figure, [set_zlim(-0.2, 1.2)], do
    not contain every entity point, unlike those of the topology figure:
    the last entity of [ENTITIES], Human Friend at (0.95, 0.95), lies in
    the plotted square and is scattered above 1.2. *)
Theorem entity_point_above_zlim :
  Exists (fun ent =>
            exists embodiment persistence z color,
              FeltnessSpace.entity_point ent =
                Some (embodiment, persistence, z, color) /\
              within 0 1 embodiment /\ within 0 1 persistence /\
              1.2 < z)
         FeltnessSpace.ENTITIES.
Proof.
  unfold FeltnessSpace.ENTITIES.
  do 9 apply Exists_cons_tl. apply Exists_cons_hd.
  unfold FeltnessSpace.entity_point.
  match goal with
  | |- context [FeltnessSpace.dict_getitem ?d ?k] =>
      destruct (FeltnessSpace.dict_getitem d k) as [color |] eqn:E
  end.
  - exists 0.95, 0.95, (feltness_surface 0.95 0.95 + 0.05), color.
    pose proof feltness_at_human_friend.
    cbv zeta. unfold within. repeat split; lra.
  - exfalso. revert E. apply dict_getitem_in.
    unfold FeltnessSpace.ENTITY_COLORS. cbn [map fst In]. tauto.
Qed.

(** ** [np.clip] *)

(** X18.  [np.clip] with bounds in order sends a value to the nearest
    point of the interval: the result lies in [[a_min, a_max]], a value
    already inside is returned unchanged, and no point of the interval
    is closer to the value than the result.  Clipping twice is clipping
    once. *)
Theorem clip_nearest (a_min a_max v : R) :
  a_min <= a_max ->
  within a_min a_max (Np.clip a_min a_max v) /\
  (within a_min a_max v -> Np.clip a_min a_max v = v) /\
  (forall w, within a_min a_max w ->
     Rabs (Np.clip a_min a_max v - v) <= Rabs (w - v)) /\
  Np.clip a_min a_max (Np.clip a_min a_max v) = Np.clip a_min a_max v.
Proof.
  intros Hle.
  assert (Hin : forall u, within a_min a_max u -> Np.clip a_min a_max u = u).
  { intros u Hu. unfold within in Hu. unfold Np.clip, Rmin, Rmax.
    destruct (Rle_dec u a_min); destruct (Rle_dec _ a_max); lra. }
  pose proof (clip_within a_min a_max v Hle) as Hw.
  split; [exact Hw|]. split; [apply Hin|]. split; [| now apply Hin].
  intros w Hv. unfold within in Hv. unfold Np.clip, Rmin, Rmax.
  destruct (Rle_dec v a_min); destruct (Rle_dec _ a_max);
    unfold Rabs; destruct (Rcase_abs _); destruct (Rcase_abs _); lra.
Qed.

Lemma clip_nearest_witness :
  within 0.2 1.8 (Np.clip 0.2 1.8 2) /\
  (within 0.2 1.8 2 -> Np.clip 0.2 1.8 2 = 2) /\
  (forall w, within 0.2 1.8 w -> Rabs (Np.clip 0.2 1.8 2 - 2) <= Rabs (w - 2)) /\
  Np.clip 0.2 1.8 (Np.clip 0.2 1.8 2) = Np.clip 0.2 1.8 2.
Proof. apply (clip_nearest 0.2 1.8 2). lra. Defined.
